(** * StoryMath: the notebook component catalog of [backend/templates.py]

    A shallow embedding of the template extraction pipeline (cell
    extraction, class extraction, component-cell selection, catalog load
    and catalog queries) and the properties of it that the design document
    states.

    Conventions of the embedding.
    - A Python [str] is a [string]; every character stands for the code
      point of the same number (0 to 255).
    - A Python exception is a value of [exn]; a function that can raise
      returns a [result].
    - [ast.parse] is a function of the interpreter, not of the repository:
      the development is parameterised by it (Section variable
      [ast_parse]), and the syntax tree carries what the code reads of it.
    - [json.load] is likewise outside the repository: a notebook path
      carries the outcome of opening and decoding the file. *)

From Stdlib Require Import ZArith Ascii String List Lia.
From stdpp Require Import base option list gmap strings.

Local Open Scope Z_scope.

(** ** Exceptions and the error monad *)

Inductive exn : Type :=
  | OSError
  | UnicodeDecodeError
  | JSONDecodeError
  | AttributeError
  | TypeError
  | IndexError.

Inductive result (A : Type) : Type :=
  | Ok (a : A)
  | Raise (e : exn).
Arguments Ok {A} a.
Arguments Raise {A} e.

#[global] Instance result_ret : MRet result := fun A a => Ok a.
#[global] Instance result_bind : MBind result := fun A B f m =>
  match m with
  | Ok a => f a
  | Raise e => Raise e
  end.

(** A [for] loop whose body can raise: the state is threaded through the
    items in order and the first exception ends the loop. *)
Fixpoint foldM {S A : Type} (body : S -> A -> result S) (s : S) (items : list A)
  : result S :=
  match items with
  | [] => Ok s
  | x :: rest =>
      match body s x with
      | Ok s' => foldM body s' rest
      | Raise e => Raise e
      end
  end.

(** ** Python strings *)

Definition nl : string := String "010"%char EmptyString.

(** [str.isspace] on one character (code points below 256). *)
Definition is_space (c : ascii) : bool :=
  let n := N_of_ascii c in
  (((9 <=? n) && (n <=? 13)) || ((28 <=? n) && (n <=? 32))
   || (n =? 133) || (n =? 160))%N.

(** The line boundaries of [str.splitlines] (code points below 256). *)
Definition is_linebreak (c : ascii) : bool :=
  let n := N_of_ascii c in
  (((10 <=? n) && (n <=? 13)) || ((28 <=? n) && (n <=? 30)) || (n =? 133))%N.

Definition is_empty (s : string) : bool :=
  match s with
  | EmptyString => true
  | String _ _ => false
  end.

Fixpoint lstrip (s : string) : string :=
  match s with
  | EmptyString => EmptyString
  | String c s' => if is_space c then lstrip s' else s
  end.

Fixpoint rstrip (s : string) : string :=
  match s with
  | EmptyString => EmptyString
  | String c s' =>
      let r := rstrip s' in
      if is_empty r && is_space c then EmptyString else String c r
  end.

Definition strip (s : string) : string := rstrip (lstrip s).

(** [sep.join(parts)] *)
Fixpoint join (sep : string) (parts : list string) : string :=
  match parts with
  | [] => EmptyString
  | [p] => p
  | p :: rest => p +:+ sep +:+ join sep rest
  end.

Fixpoint starts_with (p s : string) : bool :=
  match p, s with
  | EmptyString, _ => true
  | String a p', String b s' => bool_decide (a = b) && starts_with p' s'
  | String _ _, EmptyString => false
  end.

(** [sub in s] *)
Fixpoint contains (sub s : string) : bool :=
  starts_with sub s ||
  match s with
  | EmptyString => false
  | String _ s' => contains sub s'
  end.

(** [s.splitlines(keepends=True)]; [cur] is the line being read. *)
Fixpoint splitlines_from (cur s : string) : list string :=
  match s with
  | EmptyString => if is_empty cur then [] else [cur]
  | String c s' =>
      if bool_decide (c = "013"%char) then
        match s' with
        | String "010"%char s'' =>
            (cur +:+ String c nl) :: splitlines_from EmptyString s''
        | _ => (cur +:+ String c EmptyString) :: splitlines_from EmptyString s'
        end
      else if is_linebreak c then
        (cur +:+ String c EmptyString) :: splitlines_from EmptyString s'
      else splitlines_from (cur +:+ String c EmptyString) s'
  end.

Definition splitlines (s : string) : list string :=
  splitlines_from EmptyString s.

(** ** Python lists: indexing and slicing with integer indices *)

Definition len {A : Type} (l : list A) : Z := Z.of_nat (length l).

(** [l[i]]: a negative index counts from the end; out of range raises. *)
Definition py_index {A : Type} (l : list A) (i : Z) : result A :=
  let j := if i <? 0 then i + len l else i in
  if j <? 0 then Raise IndexError
  else match l !! Z.to_nat j with
       | Some x => Ok x
       | None => Raise IndexError
       end.

(** [l[start:stop]]: indices are clamped, never an exception. *)
Definition py_slice {A : Type} (l : list A) (start stop : Z) : list A :=
  let clamp i := if i <? 0 then Z.max (i + len l) 0 else Z.min i (len l) in
  let a := clamp start in
  let b := clamp stop in
  take (Z.to_nat (b - a)) (drop (Z.to_nat a) l).

(** ** Decoded JSON *)

#[local] Set Warnings "-register-all".

Inductive json : Type :=
  | JNull
  | JBool (b : bool)
  | JNumber (literal : string)
  | JString (s : string)
  | JArray (items : list json)
  | JObject (members : list (string * json)).

(** The dict that [json.load] builds from the members of an object keeps
    the last value of a repeated key. *)
Fixpoint dict_lookup (k : string) (members : list (string * json)) : option json :=
  match members with
  | [] => None
  | (k', v) :: rest =>
      match dict_lookup k rest with
      | Some v' => Some v'
      | None => if bool_decide (k = k') then Some v else None
      end
  end.

(** The keys of that dict, in order of first insertion. *)
Fixpoint dict_keys (seen : list string) (members : list (string * json)) : list string :=
  match members with
  | [] => []
  | (k, _) :: rest =>
      if bool_decide (k ∈ seen) then dict_keys seen rest
      else k :: dict_keys (k :: seen) rest
  end.

(** [v.get(key, default)]: only a dict has the method. *)
Definition get (v : json) (key : string) (default : json) : result json :=
  match v with
  | JObject members =>
      Ok (match dict_lookup key members with
          | Some x => x
          | None => default
          end)
  | _ => Raise AttributeError
  end.

Fixpoint chars (s : string) : list string :=
  match s with
  | EmptyString => []
  | String c s' => String c EmptyString :: chars s'
  end.

(** The items a [for] loop over [v] visits. *)
Definition iterate (v : json) : result (list json) :=
  match v with
  | JArray items => Ok items
  | JObject members => Ok (JString <$> dict_keys [] members)
  | JString s => Ok (JString <$> chars s)
  | JNull | JBool _ | JNumber _ => Raise TypeError
  end.

(** [to_join.join(source)]: every item has to be a [str]. *)
Fixpoint join_items (items : list json) : result string :=
  match items with
  | [] => Ok EmptyString
  | JString s :: rest =>
      match join_items rest with
      | Ok t => Ok (s +:+ t)
      | Raise e => Raise e
      end
  | _ :: _ => Raise TypeError
  end.

(** [v != "code"] *)
Definition differs_from_code (v : json) : bool :=
  match v with
  | JString s => bool_decide (s ≠ "code")
  | _ => true
  end.

(** ** Cell extractor *)

(** A notebook path: its stem, and the outcome of
    [open(notebook_path, "r", encoding="utf-8")] followed by
    [json.load(f)]. *)
Record Path : Type := {
  stem : string;
  json_load : result json
}.

(** The body of the loop of [_extract_code_cells] for one cell. *)
Definition extract_cell (cells : list string) (cell : json) : result (list string) :=
  cell_type ← get cell "cell_type" JNull;
  if differs_from_code cell_type then Ok cells
  else
    source ← get cell "source" (JArray []);
    text ← match source with
           | JArray items => join_items items
           | JString s => Ok s
           | _ => Raise AttributeError
           end;
    if is_empty (strip text) then Ok cells else Ok (cells ++ [text]).

Definition _extract_code_cells (notebook_path : Path) : result (list string) :=
  nb ← json_load notebook_path;
  cells_value ← get nb "cells" (JArray []);
  items ← iterate cells_value;
  foldM extract_cell [] items.

(** ** Syntax trees

    What the code reads of the tree [ast.parse] returns: the top-level
    statements, and of a class definition its name, its base expressions
    and its line numbers. *)

Inductive expr : Type :=
  | Name (id : string)
  | Attribute (value : expr) (attr : string)
  | OtherExpr (unparsed : string).

(** [ast.unparse] of a base expression. For an expression that is neither
    a name nor an attribute access, [unparsed] is the text [ast.unparse]
    writes for it in front of a dot. *)
Fixpoint unparse (e : expr) : string :=
  match e with
  | Name id => id
  | Attribute value attr => unparse value +:+ "." +:+ attr
  | OtherExpr unparsed => unparsed
  end.

Record ClassDef : Type := {
  node_name : string;
  bases : list expr;
  lineno : Z;
  end_lineno : option Z
}.

Inductive stmt : Type :=
  | Class (node : ClassDef)
  | OtherStmt.

(** ** The data model *)

Record TemplateClass : Type := {
  name : string;
  source : string;
  base_classes : list string;
  is_scene : bool;
  requires_latex : bool;
  category : string;
  notebook : string
}.

Definition SCENE_BASES : gset string :=
  list_to_set ["Scene"; "ThreeDScene"; "MovingCameraScene"; "ZoomedScene"].

Definition CATEGORY_TABLE : list (string * string) :=
  [ ("Node", "circuit_elements");
    ("Wire", "circuit_elements");
    ("Resistor", "circuit_elements");
    ("Capacitor", "circuit_elements");
    ("Inductor", "circuit_elements");
    ("JosephsonJunction", "circuit_elements");
    ("Ground", "circuit_elements");
    ("ReferenceGrid", "circuit_elements");
    ("CooperPairBox", "superconducting");
    ("resonator", "superconducting");
    ("TransistorSymbol", "superconducting");
    ("SwitchSymbol", "superconducting");
    ("Transmon", "superconducting");
    ("Hadamard", "quantum_gates");
    ("Oracle", "quantum_gates");
    ("Not", "quantum_gates");
    ("Measurement", "quantum_gates");
    ("Identity", "quantum_gates");
    ("Zgate", "quantum_gates");
    ("Cnot", "quantum_gates");
    ("Register", "quantum_gates");
    ("GeneralAtom", "atoms");
    ("NeutralAtom", "atoms");
    ("RydbergAtom", "atoms");
    ("MajoranaParticle", "atoms");
    ("ElectronSpinObject", "spin");
    ("SpinFlip", "spin");
    ("BlochSphere", "bloch_sphere");
    ("ComplexityComparison", "complexity") ].

Definition CATEGORY_MAP : gmap string string := list_to_map CATEGORY_TABLE.

Definition LABEL_TABLE : list (string * string) :=
  [ ("quantum_gates", "Quantum Gates");
    ("circuit_elements", "Circuit Elements");
    ("atoms", "Atoms & Particles");
    ("bloch_sphere", "Bloch Sphere");
    ("spin", "Electron Spin");
    ("superconducting", "Superconducting Qubits");
    ("complexity", "Complexity");
    ("other", "Other") ].

Definition CATEGORY_LABELS : gmap string string := list_to_map LABEL_TABLE.

(** [bool(set(base_names) & SCENE_BASES)] *)
Definition meets_scene_bases (base_names : list string) : bool :=
  bool_decide ((list_to_set base_names : gset string) ∩ SCENE_BASES ≠ ∅).

Section Templates.

(** [ast.parse]: the top-level statements of the module, or [None] for a
    [SyntaxError]. *)
Variable ast_parse : string -> option (list stmt).

(** ** Class extractor *)

(** The base names [_extract_classes_from_source] collects. *)
Definition class_base_names (node : ClassDef) : list string :=
  flat_map (fun base =>
              match base with
              | Name id => [id]
              | Attribute _ _ => [unparse base]
              | OtherExpr _ => []
              end) (bases node).

(** The first top-level class definition that starts below [node]. *)
Fixpoint next_class (tree : list stmt) (node : ClassDef) : option ClassDef :=
  match tree with
  | [] => None
  | Class other :: rest =>
      if lineno node <? lineno other then Some other else next_class rest node
  | OtherStmt :: rest => next_class rest node
  end.

(** [while end > start and not lines[end - 1].strip(): end -= 1];
    [fuel] bounds the number of turns. *)
Fixpoint walk_back (fuel : nat) (lines : list string) (start stop : Z) : result Z :=
  match fuel with
  | O => Ok stop
  | S fuel' =>
      if start <? stop then
        line ← py_index lines (stop - 1);
        if is_empty (strip line) then walk_back fuel' lines start (stop - 1)
        else Ok stop
      else Ok stop
  end.

(** The value of [end] after lines 126 to 136. *)
Definition class_end (lines : list string) (tree : list stmt) (node : ClassDef)
  : result Z :=
  let start := lineno node - 1 in
  match end_lineno node with
  | Some stop => Ok stop
  | None =>
      match next_class tree node with
      | Some other =>
          walk_back (Z.to_nat (lineno other - 1 - start)) lines start
                    (lineno other - 1)
      | None => Ok (len lines)
      end
  end.

(** The body of the loop over the top-level statements. *)
Definition extract_class (source notebook_name : string) (tree : list stmt)
    (classes : list TemplateClass) (child : stmt) : result (list TemplateClass) :=
  match child with
  | OtherStmt => Ok classes
  | Class node =>
      let lines := splitlines source in
      let base_names := class_base_names node in
      let start := lineno node - 1 in
      stop ← class_end lines tree node;
      let class_source := rstrip (join EmptyString (py_slice lines start stop)) in
      let is_scene := meets_scene_bases base_names in
      let requires_latex :=
        contains "MathTex" class_source || contains "Tex(" class_source in
      let category :=
        default (if is_scene then "examples" else "other")
                (CATEGORY_MAP !! node_name node) in
      Ok (classes ++ [ {| name := node_name node;
                          source := class_source;
                          base_classes := base_names;
                          is_scene := is_scene;
                          requires_latex := requires_latex;
                          category := category;
                          notebook := notebook_name |} ])
  end.

Definition _extract_classes_from_source (source notebook_name : string)
  : result (list TemplateClass) :=
  match ast_parse source with
  | None => Ok []
  | Some tree => foldM (extract_class source notebook_name tree) [] tree
  end.

(** ** Component-cell selector *)

(** The base names [_find_component_cell] collects: names only. *)
Definition name_bases (node : ClassDef) : list string :=
  flat_map (fun base =>
              match base with
              | Name id => [id]
              | _ => []
              end) (bases node).

Definition counts_as_component (child : stmt) : bool :=
  match child with
  | Class node => negb (meets_scene_bases (name_bases node))
  | OtherStmt => false
  end.

(** [component_count] of one parsed cell. *)
Definition component_count (tree : list stmt) : nat :=
  length (filter (fun child => counts_as_component child = true) tree).

(** The body of the loop over the cells; the state is
    [(best_cell, best_count)]. *)
Definition find_step (best : option string * nat) (cell_source : string)
  : option string * nat :=
  match ast_parse cell_source with
  | None => best
  | Some tree =>
      if (best.2 <? component_count tree)%nat
      then (Some cell_source, component_count tree)
      else best
  end.

Definition _find_component_cell (cells : list string) : option string :=
  (fold_left find_step cells (None, 0%nat)).1.

(** ** Catalog *)

Record TemplateCatalog : Type := {
  _components : list TemplateClass;
  _examples : list TemplateClass;
  _by_name : gmap string TemplateClass
}.

(** The state of [_load]: the catalog under construction and the two
    local sets. *)
Record load_state : Type := {
  self : TemplateCatalog;
  seen_components : gset string;
  seen_examples : gset string
}.

Definition empty_catalog : TemplateCatalog :=
  {| _components := []; _examples := []; _by_name := ∅ |}.

Definition initial_state : load_state :=
  {| self := empty_catalog; seen_components := ∅; seen_examples := ∅ |}.

(** Lines 220 to 223. *)
Definition register_component (st : load_state) (cls : TemplateClass) : load_state :=
  if negb (is_scene cls) && bool_decide (name cls ∉ seen_components st) then
    {| self := {| _components := _components (self st) ++ [cls];
                  _examples := _examples (self st);
                  _by_name := <[name cls := cls]> (_by_name (self st)) |};
       seen_components := seen_components st ∪ {[name cls]};
       seen_examples := seen_examples st |}
  else st.

(** Lines 231 to 234. *)
Definition register_example (st : load_state) (cls : TemplateClass) : load_state :=
  if is_scene cls && bool_decide (name cls ∉ seen_examples st) then
    {| self := {| _components := _components (self st);
                  _examples := _examples (self st) ++ [cls];
                  _by_name := <[name cls := cls]> (_by_name (self st)) |};
       seen_components := seen_components st;
       seen_examples := seen_examples st ∪ {[name cls]} |}
  else st.

(** Lines 217 to 223; [if component_cell:] holds for a string that is not
    empty. *)
Definition load_components (nb_name : string) (component_cell : option string)
    (st : load_state) : result load_state :=
  match component_cell with
  | Some cell_source =>
      if is_empty cell_source then Ok st
      else
        classes ← _extract_classes_from_source cell_source nb_name;
        Ok (fold_left register_component classes st)
  | None => Ok st
  end.

(** Lines 226 to 234, for one cell. *)
Definition load_examples (nb_name : string) (component_cell : option string)
    (st : load_state) (cell_source : string) : result load_state :=
  if bool_decide (Some cell_source = component_cell) then Ok st
  else
    classes ← _extract_classes_from_source cell_source nb_name;
    Ok (fold_left register_example classes st).

(** The body of the loop over the notebooks. *)
Definition load_notebook (st : load_state) (nb_path : Path) : result load_state :=
  let nb_name := stem nb_path in
  cells ← _extract_code_cells nb_path;
  let component_cell := _find_component_cell cells in
  st' ← load_components nb_name component_cell st;
  foldM (load_examples nb_name component_cell) st' cells.

(** [TemplateCatalog()]: [samples_dir] is [None] when [SAMPLES_DIR] does
    not exist, and otherwise [sorted(SAMPLES_DIR.glob("*.ipynb"))]. *)
Definition _load (samples_dir : option (list Path)) : result TemplateCatalog :=
  match samples_dir with
  | None => Ok empty_catalog
  | Some [] => Ok empty_catalog
  | Some notebooks =>
      st ← foldM load_notebook initial_state notebooks;
      Ok (self st)
  end.

End Templates.

(** ** Catalog queries *)

Definition get_components (cat : TemplateCatalog) : list TemplateClass :=
  _components cat.

Definition get_examples (cat : TemplateCatalog) : list TemplateClass :=
  _examples cat.

Definition get_by_name (cat : TemplateCatalog) (n : string) : option TemplateClass :=
  _by_name cat !! n.

Definition get_by_category (cat : TemplateCatalog) (c : string) : list TemplateClass :=
  filter (fun comp => category comp = c) (_components cat).

Definition get_component_source (cat : TemplateCatalog) (names : option (list string))
  : string :=
  let targets :=
    match names with
    | None => _components cat
    | Some names =>
        let name_set : gset string := list_to_set names in
        filter (fun c => name c ∈ name_set) (_components cat)
    end in
  match targets with
  | [] => EmptyString
  | _ => join (nl +:+ nl +:+ nl) (source <$> targets)
  end.

Definition heading (cat_label : string) : string := nl +:+ "## " +:+ cat_label.

Definition bullet (comp : TemplateClass) : string :=
  let bases := join ", " (base_classes comp) in
  let latex_tag := if requires_latex comp then " [uses LaTeX]" else EmptyString in
  "- `" +:+ name comp +:+ "` (extends " +:+ bases +:+ ")" +:+ latex_tag.

Definition label_of (comp : TemplateClass) : string :=
  default (category comp) (CATEGORY_LABELS !! category comp).

(** The body of the loop of [get_summary]; the state is
    [(lines, current_cat)]. *)
Definition summary_step (acc : list string * string) (comp : TemplateClass)
  : list string * string :=
  let cat_label := label_of comp in
  let acc' :=
    if bool_decide (cat_label ≠ acc.2)
    then (acc.1 ++ [heading cat_label], cat_label)
    else acc in
  (acc'.1 ++ [bullet comp], acc'.2).

Definition summary_lines (cat : TemplateCatalog) : list string :=
  (fold_left summary_step (_components cat) ([], EmptyString)).1.

Definition get_summary (cat : TemplateCatalog) : string :=
  join nl (summary_lines cat).

Definition get_example_source (cat : TemplateCatalog) (n : string) : option string :=
  match _by_name cat !! n with
  | Some cls => if is_scene cls then Some (source cls) else None
  | None => None
  end.

(** ** The registrations of a load

    The classes [_load] hands to its two registration blocks, in the order
    it does so, and the ones among them that get registered. They serve to
    state what a loaded catalog contains. *)

Section Registrations.

Variable ast_parse : string -> option (list stmt).

(** The classes of the component cell that pass [not cls.is_scene]. *)
Definition component_attempts (nb_name : string) (component_cell : option string)
  : result (list TemplateClass) :=
  match component_cell with
  | Some cell_source =>
      if is_empty cell_source then Ok []
      else
        classes ← _extract_classes_from_source ast_parse cell_source nb_name;
        Ok (filter (fun cls => is_scene cls = false) classes)
  | None => Ok []
  end.

(** The classes of another cell that pass [cls.is_scene], after [seen]. *)
Definition example_attempts (nb_name : string) (component_cell : option string)
    (seen : list TemplateClass) (cell_source : string) : result (list TemplateClass) :=
  if bool_decide (Some cell_source = component_cell) then Ok seen
  else
    classes ← _extract_classes_from_source ast_parse cell_source nb_name;
    Ok (seen ++ filter (fun cls => is_scene cls = true) classes).

Definition notebook_attempts (nb_path : Path) : result (list TemplateClass) :=
  cells ← _extract_code_cells nb_path;
  let component_cell := _find_component_cell ast_parse cells in
  from_components ← component_attempts (stem nb_path) component_cell;
  foldM (example_attempts (stem nb_path) component_cell) from_components cells.

Definition attempts (notebooks : list Path) : result (list TemplateClass) :=
  foldM (fun before nb_path =>
           here ← notebook_attempts nb_path;
           Ok (before ++ here)) [] notebooks.

End Registrations.

(** The attempts that find their name free in the set of their kind
    ([seen_components] for a component, [seen_examples] for a scene);
    [seen] lists the pairs of name and kind taken so far. *)
Fixpoint registrations_from (seen : list (string * bool)) (tried : list TemplateClass)
  : list TemplateClass :=
  match tried with
  | [] => []
  | cls :: rest =>
      if bool_decide ((name cls, is_scene cls) ∈ seen)
      then registrations_from seen rest
      else cls :: registrations_from ((name cls, is_scene cls) :: seen) rest
  end.

Definition registrations (tried : list TemplateClass) : list TemplateClass :=
  registrations_from [] tried.

(** ** Vocabulary of the statements *)

(** One attempt, by the block its kind sends it to. *)
Definition register (st : load_state) (cls : TemplateClass) : load_state :=
  if is_scene cls then register_example st cls else register_component st cls.

(** What the extractor computes for the category of a class. *)
Definition category_of (n : string) (scene : bool) : string :=
  default (if scene then "examples" else "other") (CATEGORY_MAP !! n).

(** The notebooks a load visits. *)
Definition scanned (samples_dir : option (list Path)) : list Path :=
  default [] samples_dir.

(** The class definitions among the top-level statements. *)
Definition class_nodes (tree : list stmt) : list ClassDef :=
  omap (fun child =>
          match child with
          | Class node => Some node
          | OtherStmt => None
          end) tree.

(** A class definition whose set of base-class names does not meet the
    scene bases. *)
Definition avoids_scene_bases (node : ClassDef) : Prop :=
  (list_to_set (class_base_names node) : gset string) ∩ SCENE_BASES = ∅.

(** The score of a cell as the design document states it: the number of
    its top-level class definitions whose set of base-class names does
    not meet the scene bases, and zero for a cell that does not parse.
    It is written without the selector's own counter; the properties
    compare the two. *)
Definition score (ast_parse : string -> option (list stmt)) (cell_source : string) : nat :=
  match ast_parse cell_source with
  | Some tree => length (filter avoids_scene_bases (class_nodes tree))
  | None => O
  end.

(** Whether [get_summary] prints a heading in front of the component at
    position [i]: it is the first one, or its label differs from that of
    the component in front of it. *)
Definition starts_run (comps : list TemplateClass) (i : nat) : bool :=
  match i with
  | O => true
  | S j => bool_decide (label_of <$> comps !! j ≠ label_of <$> comps !! i)
  end.

Definition summary_block (comps : list TemplateClass) (i : nat) (comp : TemplateClass)
  : list string :=
  (if starts_run comps i then [heading (label_of comp)] else []) ++ [bullet comp].

(** The name index after the registrations [regs]: each one writes its
    entry. *)
Definition indexed (m : gmap string TemplateClass) (regs : list TemplateClass)
  : gmap string TemplateClass :=
  fold_left (fun m cls => <[name cls := cls]> m) regs m.

(** The catalog that the registrations [regs] build. *)
Definition catalog_of (regs : list TemplateClass) : TemplateCatalog :=
  {| _components := filter (fun cls => is_scene cls = false) regs;
     _examples := filter (fun cls => is_scene cls = true) regs;
     _by_name := indexed ∅ regs |}.

(** The names in the two local sets of [_load] are those of [seen]. *)
Definition tracks (seen : list (string * bool)) (st : load_state) : Prop :=
  ∀ n, (n ∈ seen_components st ↔ (n, false) ∈ seen) ∧
       (n ∈ seen_examples st ↔ (n, true) ∈ seen).

(** The category of a class is the one the extractor computes. *)
Definition well_categorised (cls : TemplateClass) : Prop :=
  category cls = category_of (name cls) (is_scene cls).

(** The separator of [get_component_source]. *)
Definition blank_lines : string := nl +:+ nl +:+ nl.

(** The lines [get_summary] adds for [comps] when [current_cat] is the
    label it printed last. *)
Fixpoint summary_from (current_cat : string) (comps : list TemplateClass)
  : list string :=
  match comps with
  | [] => []
  | comp :: rest =>
      (if bool_decide (label_of comp ≠ current_cat)
       then [heading (label_of comp)] else [])
      ++ bullet comp :: summary_from (label_of comp) rest
  end.

(** The components of each category stand together in the list. *)
Definition contiguous (comps : list TemplateClass) : Prop :=
  ∀ (i j k : nat) ci cj ck,
    (i < j)%nat → (j < k)%nat →
    comps !! i = Some ci → comps !! j = Some cj → comps !! k = Some ck →
    category ci = category ck → category cj = category ci.

(** The categories a component can have, and the label of a category. *)
Definition COMPONENT_CATEGORIES : list string := "other" :: CATEGORY_TABLE.*2.

Definition label_for (cat : string) : string :=
  default cat (CATEGORY_LABELS !! cat).

(** The labels of the component categories are not empty and tell the
    categories apart. *)
Definition labels_distinct : bool :=
  forallb (fun a =>
             negb (is_empty (label_for a)) &&
             forallb (fun b =>
                        implb (String.eqb (label_for a) (label_for b))
                              (String.eqb a b))
                     COMPONENT_CATEGORIES)
          COMPONENT_CATEGORIES.

(** A cell that lacks its type, or a code cell that lacks its source. *)
Definition incomplete (cell : list (string * json)) : Prop :=
  dict_lookup "cell_type" cell = None ∨
  (dict_lookup "cell_type" cell = Some (JString "code") ∧
   dict_lookup "source" cell = None).

(** What the selector has found after reading [cells]: nothing when no
    cell scores, else the first cell of greatest score. *)
Definition selected (ast_parse : string -> option (list stmt))
    (cells : list string) (best : option string) (count : nat) : Prop :=
  match best with
  | None => count = O ∧ ∀ c, c ∈ cells → score ast_parse c = O
  | Some b =>
      ∃ i : nat,
        cells !! i = Some b ∧ score ast_parse b = count ∧ (0 < count)%nat ∧
        (∀ (j : nat) c, cells !! j = Some c → (score ast_parse c ≤ count)%nat) ∧
        (∀ (j : nat) c, (j < i)%nat → cells !! j = Some c →
                        (score ast_parse c < count)%nat)
  end.

(** ** Sample notebooks

    Cells in the style of the repository's tests, with the trees CPython's
    [ast.parse] builds for them; [sample_parse] knows these sources only. *)

Module Samples.

Definition class_stmt (n base : string) (first last : Z) : stmt :=
  Class {| node_name := n; bases := [Name base];
           lineno := first; end_lineno := Some last |}.

Definition cell_gates : string :=
  "class Node(VGroup): pass" +:+ nl +:+
  "class Hadamard(VGroup): pass" +:+ nl +:+
  "class Wire(VGroup): pass" +:+ nl.

Definition cell_abc : string :=
  "class A(VGroup):" +:+ nl +:+ "    pass" +:+ nl +:+
  "class B(VGroup):" +:+ nl +:+ "    pass" +:+ nl +:+
  "class C(VGroup):" +:+ nl +:+ "    pass" +:+ nl.

Definition cell_my_scene : string :=
  "class MyScene(Scene):" +:+ nl +:+
  "    def construct(self):" +:+ nl +:+
  "        pass" +:+ nl.

Definition cell_foo : string := "class Foo(VGroup): pass" +:+ nl.
Definition cell_foo_scene : string := "class Foo(Scene): pass" +:+ nl.
Definition cell_bar : string := "class Bar(VGroup): pass" +:+ nl.
Definition cell_broken : string := "class Broken(" +:+ nl.
Definition cell_assign : string := "x = 1" +:+ nl.

(** A form feed in front of the class statement: white space for the
    parser, a line boundary for [splitlines]. *)
Definition cell_form_feed : string :=
  String "012"%char ("class A(VGroup): pass" +:+ nl).

Definition sample_trees : list (string * option (list stmt)) :=
  [ (cell_gates, Some [ class_stmt "Node" "VGroup" 1 1;
                        class_stmt "Hadamard" "VGroup" 2 2;
                        class_stmt "Wire" "VGroup" 3 3 ]);
    (cell_abc, Some [ class_stmt "A" "VGroup" 1 2;
                      class_stmt "B" "VGroup" 3 4;
                      class_stmt "C" "VGroup" 5 6 ]);
    (cell_my_scene, Some [ class_stmt "MyScene" "Scene" 1 3 ]);
    (cell_foo, Some [ class_stmt "Foo" "VGroup" 1 1 ]);
    (cell_foo_scene, Some [ class_stmt "Foo" "Scene" 1 1 ]);
    (cell_bar, Some [ class_stmt "Bar" "VGroup" 1 1 ]);
    (cell_broken, None);
    (cell_assign, Some [ OtherStmt ]);
    (cell_form_feed, Some [ class_stmt "A" "VGroup" 1 1 ]) ].

Fixpoint lookup_tree (table : list (string * option (list stmt))) (s : string)
  : option (list stmt) :=
  match table with
  | [] => None
  | (s', tree) :: rest => if bool_decide (s = s') then tree else lookup_tree rest s
  end.

Definition sample_parse (s : string) : option (list stmt) :=
  lookup_tree sample_trees s.

Definition code_cell (text : string) : json :=
  JObject [ ("cell_type", JString "code"); ("source", JArray [JString text]) ].

Definition notebook_of (n : string) (cells : list json) : Path :=
  {| stem := n;
     json_load := Ok (JObject [ ("cells", JArray cells);
                                ("nbformat", JNumber "4") ]) |}.

Definition nb_gates : Path := notebook_of "gates" [code_cell cell_gates].

Definition nb_foo : Path :=
  notebook_of "foo" [code_cell cell_foo; code_cell cell_foo_scene].

Definition nb_form_feed : Path := notebook_of "feed" [code_cell cell_form_feed].

Definition nb_demo : Path :=
  notebook_of "demo" [code_cell cell_abc; code_cell cell_my_scene].

(** A notebook with a cell that has no type and a code cell that has no
    source. *)
Definition cell_untyped : list (string * json) :=
  [ ("source", JArray [JString cell_assign]) ].

Definition cell_sourceless : list (string * json) :=
  [ ("cell_type", JString "code") ].

Definition partial_members : list (string * json) :=
  [ ("cells", JArray [ JObject cell_untyped; JObject cell_sourceless;
                       code_cell cell_assign ]) ].

Definition nb_partial : Path :=
  {| stem := "partial"; json_load := Ok (JObject partial_members) |}.

(** Files that are JSON without the shape of a notebook: a list in the
    place of the object, [null] in the place of the cells, and a string
    in the place of a cell. *)
Definition nb_list : Path :=
  {| stem := "list"; json_load := Ok (JArray []) |}.

Definition nb_null_cells : Path :=
  {| stem := "null_cells"; json_load := Ok (JObject [ ("cells", JNull) ]) |}.

Definition nb_string_cell : Path :=
  {| stem := "string_cell";
     json_load := Ok (JObject [ ("cells", JArray [JString "x"]) ]) |}.

(** A file that is not JSON. *)
Definition nb_corrupt : Path :=
  {| stem := "corrupt"; json_load := Raise JSONDecodeError |}.

(** The catalog of a scan directory that loads. *)
Definition loaded (samples_dir : option (list Path)) : TemplateCatalog :=
  match _load sample_parse samples_dir with
  | Ok cat => cat
  | Raise _ => empty_catalog
  end.

Definition demo_dir : option (list Path) := Some [nb_demo; nb_gates].
Definition foo_dir : option (list Path) := Some [nb_foo].
Definition gates_dir : option (list Path) := Some [nb_gates].
Definition feed_dir : option (list Path) := Some [nb_form_feed].

Definition foo_component : TemplateClass :=
  {| name := "Foo"; source := "class Foo(VGroup): pass";
     base_classes := ["VGroup"]; is_scene := false; requires_latex := false;
     category := "other"; notebook := "foo" |}.

Definition foo_example : TemplateClass :=
  {| name := "Foo"; source := "class Foo(Scene): pass";
     base_classes := ["Scene"]; is_scene := true; requires_latex := false;
     category := "examples"; notebook := "foo" |}.

End Samples.

(** ** The listings for the frontend *)

(** An item of the [components] list of [get_categories]. *)
Record component_entry : Type := {
  entry_name : string;
  entry_category : string;
  entry_requires_latex : bool;
  entry_base_classes : list string;
  entry_char_count : nat
}.

(** An item of the result of [get_categories]. *)
Record category_group : Type := {
  group_name : string;
  group_label : string;
  group_components : list component_entry
}.

(** An item of the result of [get_examples_list]. *)
Record example_entry : Type := {
  example_name : string;
  example_requires_latex : bool;
  example_notebook : string;
  example_char_count : nat
}.

Definition entry_of (cat : string) (comp : TemplateClass) : component_entry :=
  {| entry_name := name comp;
     entry_category := cat;
     entry_requires_latex := requires_latex comp;
     entry_base_classes := base_classes comp;
     entry_char_count := String.length (source comp) |}.

(** [cats[cat].append(entry)] on the dict [cats], kept as the list of its
    items in insertion order. *)
Fixpoint append_to (cat : string) (entry : component_entry)
    (cats : list (string * list component_entry))
  : list (string * list component_entry) :=
  match cats with
  | [] => []
  | (k, entries) :: rest =>
      if bool_decide (k = cat) then (k, entries ++ [entry]) :: rest
      else (k, entries) :: append_to cat entry rest
  end.

(** The body of the first loop of [get_categories]. *)
Definition categories_step (cats : list (string * list component_entry))
    (comp : TemplateClass) : list (string * list component_entry) :=
  let cat := category comp in
  let cats' := if bool_decide (cat ∈ cats.*1) then cats else cats ++ [(cat, [])] in
  append_to cat (entry_of cat comp) cats'.

(** [s.replace("_", " ")] *)
Fixpoint replace_underscores (s : string) : string :=
  match s with
  | EmptyString => EmptyString
  | String c s' =>
      String (if bool_decide (c = "_"%char) then " "%char else c)
             (replace_underscores s')
  end.

Section Categories.

(** [str.title], a method of the interpreter. *)
Variable title : string -> string.

Definition get_categories (cat : TemplateCatalog) : list category_group :=
  (fun item : string * list component_entry =>
     {| group_name := item.1;
        group_label :=
          default (title (replace_underscores item.1)) (CATEGORY_LABELS !! item.1);
        group_components := item.2 |})
  <$> fold_left categories_step (_components cat) [].

End Categories.

Definition get_examples_list (cat : TemplateCatalog) : list example_entry :=
  (fun ex =>
     {| example_name := name ex;
        example_requires_latex := requires_latex ex;
        example_notebook := notebook ex;
        example_char_count := String.length (source ex) |})
  <$> _examples cat.

(** ** The system prompt of [main.py] *)

Section Prompt.

(** The text of [BASE_SYSTEM_PROMPT] in front of [{latex_rules}], between
    it and [{component_rules}], and behind that: [str.format] puts the two
    values between these three parts. The two rule texts are constants of
    the module as well. *)
Variables prompt_head prompt_rules prompt_tail : string.
Variables LATEX_ENABLED_RULES LATEX_DISABLED_RULES : string.

(** Lines 171 to 181. *)
Definition library_rules (component_source : string) : string :=
  nl +:+ "AVAILABLE COMPONENT LIBRARY:" +:+ nl +:+
  "The following reusable component classes are available for you to use. Include their class definitions"
  +:+ nl +:+
  "BEFORE the GeneratedScene class in your output. Use them as building blocks instead of recreating from scratch."
  +:+ nl +:+ nl +:+ "```python" +:+ nl +:+ component_source +:+ nl +:+ "```"
  +:+ nl +:+ nl +:+
  "When using these components, include the full class definition(s) in your output so the code is self-contained."
  +:+ nl.

(** Lines 187 to 192. *)
Definition summary_rules (summary : string) : string :=
  nl +:+
  "AVAILABLE COMPONENTS (not included in this prompt, but the user may select them):"
  +:+ nl +:+ summary +:+ nl +:+ nl +:+
  "If you need any of these components, recreate simplified versions based on the names and base classes shown above."
  +:+ nl.

(** Lines 167 to 181: [component_rules] after the first [if]. *)
Definition selected_rules (catalog : TemplateCatalog)
    (selected_components : option (list string)) : string :=
  match selected_components with
  | Some (n :: names) =>
      let component_source := get_component_source catalog (Some (n :: names)) in
      if is_empty component_source then EmptyString
      else library_rules component_source
  | Some [] | None => EmptyString
  end.

(** Lines 167 to 192: [component_rules] at the [return]. *)
Definition component_rules (catalog : TemplateCatalog)
    (selected_components : option (list string)) : string :=
  let rules := selected_rules catalog selected_components in
  let summary := get_summary catalog in
  if is_empty (strip summary) then rules
  else if is_empty rules then summary_rules summary
  else rules.

Definition build_system_prompt (catalog : TemplateCatalog) (latex_available : bool)
    (selected_components : option (list string)) : string :=
  let latex_rules :=
    if latex_available then LATEX_ENABLED_RULES else LATEX_DISABLED_RULES in
  prompt_head +:+ latex_rules +:+ prompt_rules +:+
  component_rules catalog selected_components +:+ prompt_tail.

End Prompt.

(** ** The code in a response ([extract_code_from_response])

    The two patterns the function searches for are sequences of three
    kinds of items, matched with backtracking as [re] does: a greedy item
    tries to take more before it tries less, a lazy one less before
    more. *)

Inductive pattern_item : Type :=
  | Literal (text : string)
  | Spaces      (* [\s*] *)
  | Group.      (* [(.*?)] under [re.DOTALL] *)

(** What is left of [s] behind its prefix [p]. *)
Fixpoint drop_prefix (p s : string) : option string :=
  match p, s with
  | EmptyString, _ => Some s
  | String a p', String b s' =>
      if bool_decide (a = b) then drop_prefix p' s' else None
  | String _ _, EmptyString => None
  end.

(** [\s*] in front of what [rest] matches: as many white space
    characters as possible, fewer when [rest] fails behind them. *)
Fixpoint greedy_spaces (rest : string -> option string) (s : string)
  : option string :=
  match s with
  | String c s' =>
      if is_space c then
        match greedy_spaces rest s' with
        | Some found => Some found
        | None => rest s
        end
      else rest s
  | EmptyString => rest s
  end.

(** [(.*?)] in front of what [rest] matches: as few characters as
    possible; [taken] is the text of the group so far. *)
Fixpoint lazy_any (rest : string -> string -> option string) (s taken : string)
  : option string :=
  match rest s taken with
  | Some found => Some found
  | None =>
      match s with
      | String c s' => lazy_any rest s' (taken +:+ String c EmptyString)
      | EmptyString => None
      end
  end.

(** A match of the items [items] at the start of [s]: the text of the
    group on success; [group] is the text captured so far. *)
Fixpoint match_here (items : list pattern_item) (s group : string) : option string :=
  match items with
  | [] => Some group
  | Literal text :: items' =>
      match drop_prefix text s with
      | Some rest => match_here items' rest group
      | None => None
      end
  | Spaces :: items' => greedy_spaces (fun s' => match_here items' s' group) s
  | Group :: items' => lazy_any (match_here items') s EmptyString
  end.

(** [re.search(pattern, s).group(1)], or [None] without a match: the
    first position of [s] at which the items match. *)
Fixpoint search (items : list pattern_item) (s : string) : option string :=
  match match_here items s EmptyString with
  | Some group => Some group
  | None =>
      match s with
      | String _ s' => search items s'
      | EmptyString => None
      end
  end.

Definition python_fence : list pattern_item :=
  [ Literal "```python"; Spaces; Group; Spaces; Literal "```" ].

Definition plain_fence : list pattern_item :=
  [ Literal "```"; Spaces; Group; Spaces; Literal "```" ].

Definition extract_code_from_response (response_text : string) : string :=
  match search python_fence response_text with
  | Some group => strip group
  | None =>
      if contains "```" response_text then
        match search plain_fence response_text with
        | Some group => strip group
        | None => strip response_text
        end
      else strip response_text
  end.

(** The character [c] occurs in [s]. *)
Fixpoint mentions (c : ascii) (s : string) : bool :=
  match s with
  | EmptyString => false
  | String a s' => bool_decide (a = c) || mentions c s'
  end.

Definition backtick : ascii := "`"%char.

(** [s] is made of white space. *)
Fixpoint all_space (s : string) : bool :=
  match s with
  | EmptyString => true
  | String c s' => is_space c && all_space s'
  end.

(** ** Further vocabulary of the statements *)

(** The distinct items of a list, in the order of their first occurrence. *)
Definition first_seen (l : list string) : list string :=
  fold_left (fun seen x => if bool_decide (x ∈ seen) then seen else seen ++ [x]) l [].

(** A notebook file that decodes to an object with these cells. *)
Definition notebook_with (n : string) (cells : list json) : Path :=
  {| stem := n; json_load := Ok (JObject [ ("cells", JArray cells) ]) |}.

(** What [_extract_classes_from_source] makes of one class definition. *)
Definition extracted_from (notebook_name cell_source : string) (node : ClassDef)
    (cls : TemplateClass) : Prop :=
  name cls = node_name node ∧
  base_classes cls = class_base_names node ∧
  is_scene cls = meets_scene_bases (name_bases node) ∧
  notebook cls = notebook_name ∧
  well_categorised cls ∧
  requires_latex cls
    = contains "MathTex" (source cls) || contains "Tex(" (source cls) ∧
  rstrip (source cls) = source cls ∧
  ∃ front back, cell_source = front +:+ source cls +:+ back.

(** The class [cls] is among those extracted from the component cell of
    the notebook [nb], or from one of its other cells. *)
Definition from_component_cell (ast_parse : string -> option (list stmt))
    (nb : Path) (cls : TemplateClass) : Prop :=
  ∃ cells cell classes,
    _extract_code_cells nb = Ok cells ∧
    _find_component_cell ast_parse cells = Some cell ∧
    _extract_classes_from_source ast_parse cell (stem nb) = Ok classes ∧
    cls ∈ classes.

Definition from_other_cell (ast_parse : string -> option (list stmt))
    (nb : Path) (cls : TemplateClass) : Prop :=
  ∃ cells cell classes,
    _extract_code_cells nb = Ok cells ∧
    cell ∈ cells ∧
    _find_component_cell ast_parse cells ≠ Some cell ∧
    _extract_classes_from_source ast_parse cell (stem nb) = Ok classes ∧
    cls ∈ classes.

(** Every category a component can have is a key of [CATEGORY_LABELS]. *)
Definition labels_cover : bool :=
  forallb (fun cat => bool_decide (is_Some (CATEGORY_LABELS !! cat)))
          COMPONENT_CATEGORIES.

(** The items [get_categories] collects for the components [comps]. *)
Definition grouped (comps : list TemplateClass)
  : list (string * list component_entry) :=
  (fun k => (k, entry_of k <$> filter (fun comp => category comp = k) comps))
  <$> first_seen (category <$> comps).

(** ** Further samples *)

Module MoreSamples.

Definition markdown_cell : json :=
  JObject [ ("cell_type", JString "markdown");
            ("source", JArray [JString "# Title"]) ].

(** A class whose base is written as a dotted path, and a class of the
    table of categories that is a scene. *)
Definition cell_dotted : string := "class A(m.Scene): pass" +:+ nl.
Definition cell_node_scene : string := "class Node(Scene): pass" +:+ nl.

Definition more_trees : list (string * option (list stmt)) :=
  [ (cell_dotted,
     Some [ Class {| node_name := "A";
                     bases := [Attribute (Name "m") "Scene"];
                     lineno := 1; end_lineno := Some 1 |} ]);
    (cell_node_scene, Some [ Samples.class_stmt "Node" "Scene" 1 1 ]) ].

Definition dotted_tree : list stmt :=
  [ Class {| node_name := "A"; bases := [Attribute (Name "m") "Scene"];
             lineno := 1; end_lineno := Some 1 |} ].

Definition dotted_class : TemplateClass :=
  {| name := "A"; source := "class A(m.Scene): pass";
     base_classes := ["m.Scene"]; is_scene := false; requires_latex := false;
     category := "other"; notebook := "demo" |}.

Definition more_parse (s : string) : option (list stmt) :=
  Samples.lookup_tree (more_trees ++ Samples.sample_trees) s.

(** A tree without end lines, as a parser older than the one in use left
    it, for a text of two classes with a blank line between them. *)
Definition old_lines : list string :=
  [ "class A(VGroup): pass" +:+ nl; nl; "class B(VGroup): pass" +:+ nl ].

Definition old_node (n : string) (first : Z) : ClassDef :=
  {| node_name := n; bases := [Name "VGroup"]; lineno := first;
     end_lineno := None |}.

Definition old_tree : list stmt := [ Class (old_node "A" 1); Class (old_node "B" 3) ].

End MoreSamples.

(** * Properties *)

(** ** Loops that can raise *)

Section FoldM.

Context {S A : Type} (body : S -> A -> result S).

Lemma foldM_app (s : S) (l1 l2 : list A) :
  foldM body s (l1 ++ l2) =
  match foldM body s l1 with
  | Ok s' => foldM body s' l2
  | Raise e => Raise e
  end.
Proof.
  revert s. induction l1 as [|x l1 IH]; intros s; simpl; [done|].
  destruct (body s x); [apply IH | done].
Qed.

Lemma foldM_skip (s : S) (l1 l2 : list A) (x : A) :
  (∀ s', body s' x = Ok s') →
  foldM body s (l1 ++ x :: l2) = foldM body s (l1 ++ l2).
Proof.
  intros Hx. rewrite !foldM_app. destruct (foldM body s l1); [|done].
  simpl. by rewrite Hx.
Qed.

Lemma foldM_invariant (P : S -> Prop) (s r : S) (l : list A) :
  P s →
  (∀ s1 x s2, x ∈ l → P s1 → body s1 x = Ok s2 → P s2) →
  foldM body s l = Ok r → P r.
Proof.
  revert s. induction l as [|x l IH]; intros s Hs Hstep; simpl.
  - by intros [= <-].
  - destruct (body s x) as [s'|] eqn:Hb; [|done].
    apply IH.
    + eapply Hstep; [left | done | done].
    + intros s1 y s2 Hy. apply Hstep. by right.
Qed.

End FoldM.

Lemma bind_Ok {A B : Type} (m : result A) (f : A -> result B) (b : B) :
  mbind f m = Ok b ↔ ∃ a, m = Ok a ∧ f a = Ok b.
Proof.
  destruct m as [a|e]; simpl.
  - split; [eauto | by intros (a' & [= <-] & ?)].
  - split; [done | by intros (a' & ? & ?)].
Qed.

Lemma Ok_inj {A : Type} (a b : A) : Ok a = Ok b → a = b.
Proof. by intros [= ->]. Qed.

Lemma filter_none {A : Type} (P : A -> Prop) `{!∀ x, Decision (P x)} (l : list A) :
  (∀ x, x ∈ l → ¬ P x) → filter P l = [].
Proof.
  induction l as [|x l IH]; intros Hl; [done|].
  rewrite filter_cons_False by (apply Hl; by left).
  apply IH. intros y Hy. apply Hl. by right.
Qed.

(** ** Cell extractor *)

Lemma extract_cell_incomplete (cells : list string) (cell : list (string * json)) :
  incomplete cell → extract_cell cells (JObject cell) = Ok cells.
Proof.
  unfold extract_cell, get. intros [Hty | [Hty Hsrc]]; rewrite Hty; simpl; [done|].
  by rewrite Hsrc.
Qed.

(** C10, as the code has it. What is tolerated is a member that an
    object lacks. A notebook whose JSON is an object is read without an
    exception when it lacks its [cells] member (no cell comes out), and
    in a list of cells a cell object that lacks its [cell_type], or a
    code cell object that lacks its [source], is passed over: the outcome
    is that of the other cells. A notebook whose JSON is not an object
    raises [AttributeError], and so does a cell that is not an object,
    once the cells in front of it have been read. *)
Theorem extract_code_cells_tolerates_incomplete (nb : Path) (doc : json) :
  json_load nb = Ok doc →
  match doc with
  | JObject members =>
      (dict_lookup "cells" members = None → _extract_code_cells nb = Ok []) ∧
      (∀ before cell after,
         dict_lookup "cells" members = Some (JArray (before ++ cell :: after)) →
         match cell with
         | JObject fields =>
             incomplete fields →
             (∀ cells, extract_cell cells cell = Ok cells) ∧
             _extract_code_cells nb = foldM extract_cell [] (before ++ after)
         | _ =>
             ∀ read, foldM extract_cell [] before = Ok read →
                     _extract_code_cells nb = Raise AttributeError
         end)
  | _ => _extract_code_cells nb = Raise AttributeError
  end.
Proof.
  intros Hload. unfold _extract_code_cells. rewrite Hload.
  destruct doc as [| | | | |members]; try reflexivity.
  cbn [mbind result_bind get]. split.
  - by intros ->.
  - intros before cell after ->. cbn [iterate mbind result_bind].
    destruct cell as [| | | | |fields];
      try (intros read Hread; rewrite foldM_app, Hread; reflexivity).
    intros Hinc. split.
    + intros cells. by apply extract_cell_incomplete.
    + apply foldM_skip. intros cells. by apply extract_cell_incomplete.
Qed.

Lemma extract_code_cells_tolerates_incomplete_witness :
  json_load Samples.nb_partial = Ok (JObject Samples.partial_members) ∧
  incomplete Samples.cell_sourceless ∧
  _extract_code_cells Samples.nb_partial = Ok [Samples.cell_assign].
Proof.
  split; [reflexivity|]. split; [right; split; reflexivity|].
  destruct (extract_code_cells_tolerates_incomplete Samples.nb_partial
              (JObject Samples.partial_members) eq_refl) as [_ Hskip].
  destruct (Hskip [JObject Samples.cell_untyped] (JObject Samples.cell_sourceless)
              [Samples.code_cell Samples.cell_assign] eq_refl
              (or_intror (conj eq_refl eq_refl))) as [_ ->].
  reflexivity.
Defined.

(** C10, as the design document states it, fails: each of these files is
    JSON that parses, and reading it raises. A list in the place of the
    notebook object has no [cells] sequence, and no empty list of cells
    comes out; [null] in the place of the cells does the same; a string
    in the place of a cell has no [cell_type], and it is not passed
    over. *)
Lemma extract_code_cells_tolerates_incomplete_counterexample :
  (json_load Samples.nb_list = Ok (JArray []) ∧
   _extract_code_cells Samples.nb_list = Raise AttributeError) ∧
  (json_load Samples.nb_null_cells = Ok (JObject [ ("cells", JNull) ]) ∧
   _extract_code_cells Samples.nb_null_cells = Raise TypeError) ∧
  (json_load Samples.nb_string_cell
   = Ok (JObject [ ("cells", JArray [JString "x"]) ]) ∧
   _extract_code_cells Samples.nb_string_cell = Raise AttributeError).
Proof. repeat split; vm_compute; reflexivity. Qed.

(** ** Class extractor *)

(** C8. A source the parser rejects with a syntax error gives the empty
    list of classes, not an exception. *)
Theorem extract_classes_syntax_error
    (ast_parse : string -> option (list stmt)) (source notebook_name : string) :
  ast_parse source = None →
  _extract_classes_from_source ast_parse source notebook_name = Ok [].
Proof. unfold _extract_classes_from_source. by intros ->. Qed.

Lemma extract_classes_syntax_error_witness :
  Samples.sample_parse Samples.cell_broken = None ∧
  _extract_classes_from_source Samples.sample_parse Samples.cell_broken "test_nb"
  = Ok [].
Proof.
  split; [reflexivity|].
  apply (extract_classes_syntax_error Samples.sample_parse Samples.cell_broken
           "test_nb").
  reflexivity.
Defined.

(** ** Scene bases *)

Lemma meets_scene_bases_true (base_names : list string) :
  meets_scene_bases base_names = true ↔
  ∃ b, b ∈ base_names ∧ b ∈ SCENE_BASES.
Proof.
  unfold meets_scene_bases. rewrite bool_decide_eq_true. split.
  - intros (b & Hin)%set_choose_L.
    apply elem_of_intersection in Hin as [Hb%elem_of_list_to_set Hs].
    by exists b.
  - intros (b & Hb & Hs) Hempty.
    assert (b ∈ (list_to_set base_names : gset string) ∩ SCENE_BASES) as Hin.
    { apply elem_of_intersection. split; [by apply elem_of_list_to_set | done]. }
    rewrite Hempty in Hin. by apply elem_of_empty in Hin.
Qed.

Lemma contains_dot (s attr : string) : contains "." (s +:+ "." +:+ attr) = true.
Proof.
  induction s as [|c s IH]; [done|].
  change (String c s +:+ "." +:+ attr) with (String c (s +:+ "." +:+ attr)).
  cbn [contains]. rewrite IH. apply orb_true_r.
Qed.

Lemma scene_base_no_dot (b : string) : b ∈ SCENE_BASES → contains "." b = false.
Proof.
  unfold SCENE_BASES. rewrite elem_of_list_to_set, !elem_of_cons.
  intros [->|[->|[->|[->|Hb]]]]; try reflexivity. by apply elem_of_nil in Hb.
Qed.

(** The two ways of collecting base names meet the scene bases
    together: an attribute access unparses to a dotted path, and no scene
    base has a dot. *)
Lemma scene_bases_agree (node : ClassDef) :
  meets_scene_bases (name_bases node) = meets_scene_bases (class_base_names node).
Proof.
  apply eq_true_iff_eq. rewrite !meets_scene_bases_true.
  unfold name_bases, class_base_names.
  induction (bases node) as [|base rest IH]; [done|]. cbn [flat_map].
  split; intros (b & [Hb|Hb]%elem_of_app & Hs).
  - destruct base as [id|value attr|text]; [|by apply elem_of_nil in Hb..].
    exists b. split; [apply elem_of_app; by left | done].
  - destruct (proj1 IH) as (b' & Hb' & Hs'); [by exists b|].
    exists b'. split; [apply elem_of_app; by right | done].
  - destruct base as [id|value attr|text]; [| |by apply elem_of_nil in Hb].
    + exists b. split; [apply elem_of_app; by left | done].
    + apply list_elem_of_singleton in Hb as ->. apply scene_base_no_dot in Hs.
      cbn [unparse] in Hs. by rewrite contains_dot in Hs.
  - destruct (proj2 IH) as (b' & Hb' & Hs'); [by exists b|].
    exists b'. split; [apply elem_of_app; by right | done].
Qed.

(** ** Component-cell selector *)

(** The counter of the selector counts the class definitions of the
    design document's score: the statements that are no class definitions
    count for nothing, and a class definition counts when the names the
    selector collects, or as well those the extractor collects, avoid the
    scene bases. *)
Lemma component_count_classes (tree : list stmt) :
  component_count tree = length (filter avoids_scene_bases (class_nodes tree)).
Proof.
  unfold component_count, class_nodes.
  induction tree as [|child tree IH]; [done|].
  destruct child as [node|].
  - change (omap ?f (Class node :: tree)) with (node :: omap f tree).
    destruct (meets_scene_bases (class_base_names node)) eqn:Hscene.
    + rewrite filter_cons_False.
      2: { cbn [counts_as_component]. by rewrite scene_bases_agree, Hscene. }
      rewrite filter_cons_False; [exact IH|].
      unfold avoids_scene_bases. unfold meets_scene_bases in Hscene.
      by apply bool_decide_eq_true in Hscene.
    + rewrite filter_cons_True.
      2: { cbn [counts_as_component]. by rewrite scene_bases_agree, Hscene. }
      rewrite filter_cons_True; [cbn [length]; by rewrite IH|].
      unfold avoids_scene_bases. unfold meets_scene_bases in Hscene.
      apply bool_decide_eq_false in Hscene.
      destruct (decide ((list_to_set (class_base_names node) : gset string)
                          ∩ SCENE_BASES = ∅)); [done | by destruct Hscene].
  - change (omap ?f (OtherStmt :: tree)) with (omap f tree).
    rewrite filter_cons_False; [exact IH | done].
Qed.

Section Selector.

Variable ast_parse : string -> option (list stmt).

Lemma find_step_score (best : option string * nat) (cell_source : string) :
  find_step ast_parse best cell_source =
  if (best.2 <? score ast_parse cell_source)%nat
  then (Some cell_source, score ast_parse cell_source)
  else best.
Proof.
  unfold find_step, score. destruct (ast_parse cell_source) as [tree|].
  - by rewrite component_count_classes.
  - by destruct best as [b [|n]].
Qed.

Lemma selected_step (cells : list string) (best : option string * nat)
    (cell_source : string) :
  selected ast_parse cells best.1 best.2 →
  selected ast_parse (cells ++ [cell_source])
           (find_step ast_parse best cell_source).1
           (find_step ast_parse best cell_source).2.
Proof.
  rewrite find_step_score. destruct best as [b n]; simpl.
  intros Hsel. destruct (Nat.ltb_spec n (score ast_parse cell_source)) as [Hlt|Hge];
    simpl.
  - (* the new cell takes over *)
    exists (length cells). split; [by rewrite lookup_app_r, Nat.sub_diag|].
    split; [done|]. split; [lia|].
    assert (∀ (j : nat) c, cells !! j = Some c → (score ast_parse c ≤ n)%nat) as Hle.
    { intros j c Hj. destruct b as [b|].
      - destruct Hsel as (i & _ & _ & _ & Hmax & _). by eapply Hmax.
      - destruct Hsel as [_ Hzero]. rewrite (Hzero c); [lia|].
        by eapply list_elem_of_lookup_2. }
    split.
    + intros j c Hj. destruct (decide (j < length cells)%nat) as [Hin|Hout].
      * rewrite lookup_app_l in Hj by done. specialize (Hle _ _ Hj). lia.
      * rewrite lookup_app_r in Hj by lia.
        destruct (j - length cells)%nat; simpl in Hj; [|done].
        injection Hj as <-. lia.
    + intros j c Hj Hc. rewrite lookup_app_l in Hc by done.
      specialize (Hle _ _ Hc). lia.
  - (* the best so far stays *)
    destruct b as [b|].
    + destruct Hsel as (i & Hi & Hsc & Hpos & Hmax & Hfirst).
      exists i. split; [by apply lookup_app_l_Some|].
      split; [done|]. split; [done|]. split.
      * intros j c Hj. destruct (decide (j < length cells)%nat) as [Hin|Hout].
        -- rewrite lookup_app_l in Hj by done. by eapply Hmax.
        -- rewrite lookup_app_r in Hj by lia.
           destruct (j - length cells)%nat; simpl in Hj; [|done].
           by injection Hj as <-.
      * intros j c Hj Hc. apply lookup_lt_Some in Hi.
        rewrite lookup_app_l in Hc by lia. by eapply Hfirst.
    + destruct Hsel as [-> Hzero]. split; [done|].
      intros c [Hc | ->%list_elem_of_singleton]%elem_of_app; [by apply Hzero | lia].
Qed.

Lemma selected_fold (cells done : list string) (best : option string * nat) :
  selected ast_parse done best.1 best.2 →
  selected ast_parse (done ++ cells)
           (fold_left (find_step ast_parse) cells best).1
           (fold_left (find_step ast_parse) cells best).2.
Proof.
  revert done best. induction cells as [|c cells IH]; intros done best Hsel; simpl.
  - by rewrite app_nil_r.
  - replace (done ++ c :: cells) with ((done ++ [c]) ++ cells)
      by (by rewrite <- app_assoc).
    apply IH. by apply selected_step.
Qed.

(** C4. With the score of a cell as the design document states it (the
    number of its top-level class definitions whose set of base-class
    names does not meet the scene bases, zero for a cell that does not
    parse), the selector returns nothing exactly when every cell scores
    zero, so also for no cells; otherwise it returns a cell of positive
    score that no cell exceeds and that every cell in front of it falls
    short of: the first cell of greatest score. *)
Theorem find_component_cell_spec (cells : list string) :
  match _find_component_cell ast_parse cells with
  | None => ∀ c, c ∈ cells → score ast_parse c = O
  | Some best =>
      ∃ i : nat,
        cells !! i = Some best ∧ (0 < score ast_parse best)%nat ∧
        (∀ (j : nat) c, cells !! j = Some c →
                        (score ast_parse c ≤ score ast_parse best)%nat) ∧
        (∀ (j : nat) c, (j < i)%nat → cells !! j = Some c →
                        (score ast_parse c < score ast_parse best)%nat)
  end ∧
  (_find_component_cell ast_parse cells = None ↔
   ∀ c, c ∈ cells → score ast_parse c = O) ∧
  _find_component_cell ast_parse [] = None.
Proof.
  split; [|split; [|reflexivity]]; unfold _find_component_cell.
  2: { pose proof (selected_fold cells [] (None, O)) as Hsel. simpl in Hsel.
       destruct (fold_left (find_step ast_parse) cells (None, O)) as [[b|] n];
         simpl in *.
       - split; [done|]. intros Hzero.
         destruct Hsel as (i & Hi & Hsc & Hpos & _).
         { split; [done | by intros c Hc%elem_of_nil]. }
         rewrite (Hzero b) in Hsc by (by eapply list_elem_of_lookup_2). lia.
       - split; [|done]. intros _. apply Hsel.
         split; [done | by intros c Hc%elem_of_nil]. }
  pose proof (selected_fold cells [] (None, O)) as Hsel. simpl in Hsel.
  destruct (fold_left (find_step ast_parse) cells (None, O)) as [[b|] n]; simpl in *.
  - destruct Hsel as (i & Hi & <- & Hpos & Hmax & Hfirst).
    + split; [done | by intros c Hc%elem_of_nil].
    + by exists i.
  - apply Hsel. split; [done | by intros c Hc%elem_of_nil].
Qed.

End Selector.

(** ** The load as a sequence of registrations *)

Lemma register_component_register (st : load_state) (cls : TemplateClass) :
  register_component st cls = if is_scene cls then st else register st cls.
Proof. unfold register, register_component. by destruct (is_scene cls). Qed.

Lemma register_example_register (st : load_state) (cls : TemplateClass) :
  register_example st cls = if is_scene cls then register st cls else st.
Proof. unfold register, register_example. by destruct (is_scene cls). Qed.

Lemma fold_register_component (classes : list TemplateClass) (st : load_state) :
  fold_left register_component classes st =
  fold_left register (filter (fun cls => is_scene cls = false) classes) st.
Proof.
  revert st. induction classes as [|cls classes IH]; intros st; simpl; [done|].
  rewrite IH, register_component_register.
  destruct (is_scene cls) eqn:Hs.
  - by rewrite filter_cons_False by (by rewrite Hs).
  - by rewrite filter_cons_True by done.
Qed.

Lemma fold_register_example (classes : list TemplateClass) (st : load_state) :
  fold_left register_example classes st =
  fold_left register (filter (fun cls => is_scene cls = true) classes) st.
Proof.
  revert st. induction classes as [|cls classes IH]; intros st; simpl; [done|].
  rewrite IH, register_example_register.
  destruct (is_scene cls) eqn:Hs.
  - by rewrite filter_cons_True by done.
  - by rewrite filter_cons_False by (by rewrite Hs).
Qed.

Section Load.

Variable ast_parse : string -> option (list stmt).

Lemma load_components_attempts (nb_name : string) (component_cell : option string)
    (st : load_state) :
  load_components ast_parse nb_name component_cell st =
  (tried ← component_attempts ast_parse nb_name component_cell;
   Ok (fold_left register tried st)).
Proof.
  unfold load_components, component_attempts.
  destruct component_cell as [cell_source|]; [|done].
  destruct (is_empty cell_source); [done|].
  destruct (_extract_classes_from_source ast_parse cell_source nb_name); simpl;
    [|done].
  by rewrite fold_register_component.
Qed.

Lemma load_examples_attempts (nb_name : string) (component_cell : option string)
    (cells : list string) (seen : list TemplateClass) (st : load_state) :
  foldM (load_examples ast_parse nb_name component_cell)
        (fold_left register seen st) cells =
  (tried ← foldM (example_attempts ast_parse nb_name component_cell) seen cells;
   Ok (fold_left register tried st)).
Proof.
  revert seen. induction cells as [|cell_source cells IH]; intros seen; simpl;
    [done|].
  unfold load_examples at 1, example_attempts at 1.
  destruct (bool_decide (Some cell_source = component_cell)); [apply IH|].
  destruct (_extract_classes_from_source ast_parse cell_source nb_name) as [classes|];
    simpl; [|done].
  rewrite fold_register_example, <- fold_left_app. apply IH.
Qed.

Lemma load_notebook_attempts (st : load_state) (nb_path : Path) :
  load_notebook ast_parse st nb_path =
  (tried ← notebook_attempts ast_parse nb_path;
   Ok (fold_left register tried st)).
Proof.
  unfold load_notebook, notebook_attempts.
  destruct (_extract_code_cells nb_path) as [cells|]; simpl; [|done].
  rewrite load_components_attempts.
  destruct (component_attempts ast_parse (stem nb_path)
              (_find_component_cell ast_parse cells)) as [tried|]; simpl; [|done].
  apply load_examples_attempts.
Qed.

Lemma load_notebooks_attempts (notebooks : list Path) (seen : list TemplateClass)
    (st : load_state) :
  foldM (load_notebook ast_parse) (fold_left register seen st) notebooks =
  (tried ← foldM (fun before nb_path =>
                    here ← notebook_attempts ast_parse nb_path;
                    Ok (before ++ here)) seen notebooks;
   Ok (fold_left register tried st)).
Proof.
  revert seen. induction notebooks as [|nb_path notebooks IH]; intros seen; simpl;
    [done|].
  rewrite load_notebook_attempts.
  destruct (notebook_attempts ast_parse nb_path) as [here|]; simpl; [|done].
  rewrite <- fold_left_app. apply IH.
Qed.

Lemma load_attempts (samples_dir : option (list Path)) :
  _load ast_parse samples_dir =
  (tried ← attempts ast_parse (scanned samples_dir);
   Ok (self (fold_left register tried initial_state))).
Proof.
  unfold _load, attempts, scanned.
  destruct samples_dir as [[|nb_path notebooks]|]; simpl default; [done| |done].
  pose proof (load_notebooks_attempts (nb_path :: notebooks) [] initial_state) as Heq.
  simpl fold_left in Heq. rewrite Heq.
  by destruct (foldM _ [] (nb_path :: notebooks)).
Qed.

End Load.

(** ** Registrations and the catalog they build *)

Lemma tracks_initial : tracks [] initial_state.
Proof. intros n. simpl. split; split; intros H; by inversion H. Qed.

Lemma tracks_component (seen : list (string * bool)) (st st' : load_state)
    (n : string) :
  tracks seen st →
  seen_components st' = seen_components st ∪ {[n]} →
  seen_examples st' = seen_examples st →
  tracks ((n, false) :: seen) st'.
Proof.
  intros Htr Hc He m. rewrite Hc, He. destruct (Htr m) as [H1 H2].
  rewrite !elem_of_cons, elem_of_union, elem_of_singleton, H1, H2.
  split; split.
  - intros [?| ->]; [by right | by left].
  - intros [[= ->]|?]; [by right | by left].
  - by right.
  - by intros [[=]|?].
Qed.

Lemma tracks_example (seen : list (string * bool)) (st st' : load_state)
    (n : string) :
  tracks seen st →
  seen_components st' = seen_components st →
  seen_examples st' = seen_examples st ∪ {[n]} →
  tracks ((n, true) :: seen) st'.
Proof.
  intros Htr Hc He m. rewrite Hc, He. destruct (Htr m) as [H1 H2].
  rewrite !elem_of_cons, elem_of_union, elem_of_singleton, H1, H2.
  split; split.
  - by right.
  - by intros [[=]|?].
  - intros [?| ->]; [by right | by left].
  - intros [[= ->]|?]; [by right | by left].
Qed.

Lemma fold_register (tried : list TemplateClass) (seen : list (string * bool))
    (st : load_state) :
  tracks seen st →
  self (fold_left register tried st) =
  {| _components :=
       _components (self st) ++
       filter (fun cls => is_scene cls = false) (registrations_from seen tried);
     _examples :=
       _examples (self st) ++
       filter (fun cls => is_scene cls = true) (registrations_from seen tried);
     _by_name := indexed (_by_name (self st)) (registrations_from seen tried) |}.
Proof.
  revert seen st. induction tried as [|cls tried IH]; intros seen st Htr.
  { simpl. rewrite !filter_nil, !app_nil_r. by destruct st as [[]]. }
  simpl fold_left. simpl registrations_from.
  unfold register at 2. destruct (is_scene cls) eqn:Hs.
  - unfold register_example. rewrite Hs. simpl andb.
    destruct (Htr (name cls)) as [_ Hex].
    destruct (decide (name cls ∈ seen_examples st)) as [Hin|Hout].
    + rewrite (bool_decide_eq_false_2 (name cls ∉ seen_examples st)) by tauto.
      rewrite (bool_decide_eq_true_2 ((name cls, true) ∈ seen)) by tauto.
      by apply IH.
    + rewrite (bool_decide_eq_true_2 (name cls ∉ seen_examples st)) by done.
      rewrite (bool_decide_eq_false_2 ((name cls, true) ∈ seen)) by tauto.
      erewrite IH; [|by eapply tracks_example]. simpl.
      rewrite filter_cons_False by (by rewrite Hs).
      rewrite filter_cons_True by done.
      by rewrite <- app_assoc.
  - unfold register_component. rewrite Hs. simpl andb.
    destruct (Htr (name cls)) as [Hco _].
    destruct (decide (name cls ∈ seen_components st)) as [Hin|Hout].
    + rewrite (bool_decide_eq_false_2 (name cls ∉ seen_components st)) by tauto.
      rewrite (bool_decide_eq_true_2 ((name cls, false) ∈ seen)) by tauto.
      by apply IH.
    + rewrite (bool_decide_eq_true_2 (name cls ∉ seen_components st)) by done.
      rewrite (bool_decide_eq_false_2 ((name cls, false) ∈ seen)) by tauto.
      erewrite IH; [|by eapply tracks_component]. simpl.
      rewrite filter_cons_True by done.
      rewrite filter_cons_False by (by rewrite Hs).
      by rewrite <- app_assoc.
Qed.

(** A load succeeds exactly when the attempts can be collected, and its
    catalog is the one their registrations build. *)
Lemma load_catalog_of (ast_parse : string -> option (list stmt))
    (samples_dir : option (list Path)) (cat : TemplateCatalog) :
  _load ast_parse samples_dir = Ok cat ↔
  ∃ tried, attempts ast_parse (scanned samples_dir) = Ok tried ∧
           cat = catalog_of (registrations tried).
Proof.
  rewrite load_attempts, bind_Ok. unfold registrations, catalog_of.
  split; intros (tried & Htried & Hcat); exists tried; (split; [done|]).
  - injection Hcat as <-. by rewrite (fold_register tried [] initial_state tracks_initial).
  - by rewrite (fold_register tried [] initial_state tracks_initial), Hcat.
Qed.

Lemma registrations_from_elem_of (seen : list (string * bool))
    (tried : list TemplateClass) (cls : TemplateClass) :
  cls ∈ registrations_from seen tried →
  cls ∈ tried ∧ (name cls, is_scene cls) ∉ seen.
Proof.
  revert seen. induction tried as [|c tried IH]; intros seen; simpl.
  { by intros ?%elem_of_nil. }
  case_bool_decide as Hc.
  - intros [? ?]%IH. split; [by right | done].
  - intros [->|[? Hn]%IH]%elem_of_cons; [split; [by left | done]|].
    split; [by right|]. intros ?. apply Hn. by right.
Qed.

Lemma registrations_from_NoDup (seen : list (string * bool))
    (tried : list TemplateClass) :
  NoDup ((fun cls => (name cls, is_scene cls)) <$> registrations_from seen tried).
Proof.
  revert seen. induction tried as [|c tried IH]; intros seen; simpl.
  { constructor. }
  case_bool_decide as Hc; [apply IH|].
  rewrite fmap_cons. constructor; [|apply IH].
  intros (cls & Hkey & [_ Hn]%registrations_from_elem_of)%list_elem_of_fmap.
  apply Hn. rewrite <- Hkey. by left.
Qed.

Lemma registrations_kind_NoDup (kind : bool) (tried : list TemplateClass) :
  NoDup (name <$> filter (fun cls => is_scene cls = kind) (registrations tried)).
Proof.
  unfold registrations. generalize (registrations_from_NoDup [] tried).
  induction (registrations_from [] tried) as [|c regs IH]; [constructor|].
  rewrite fmap_cons. intros [Hc Hregs]%NoDup_cons.
  destruct (decide (is_scene c = kind)) as [Hk|Hk].
  - rewrite filter_cons_True by done. rewrite fmap_cons.
    constructor; [|by apply IH].
    intros (c' & Hname & [Hk' Hin]%list_elem_of_filter)%list_elem_of_fmap.
    apply Hc. apply list_elem_of_fmap. exists c'. split; [|done].
    by rewrite Hname, Hk, Hk'.
  - rewrite filter_cons_False by done. by apply IH.
Qed.

Lemma indexed_lookup (m : gmap string TemplateClass) (regs : list TemplateClass)
    (n : string) :
  indexed m regs !! n =
  match last (filter (fun cls => name cls = n) regs) with
  | Some cls => Some cls
  | None => m !! n
  end.
Proof.
  revert m. induction regs as [|c regs IH]; intros m; [done|].
  unfold indexed in *. simpl fold_left. rewrite IH.
  destruct (decide (name c = n)) as [Hn|Hn].
  - rewrite filter_cons_True by done. rewrite last_cons.
    destruct (last (filter _ regs)); [done|].
    by rewrite <- Hn, lookup_insert_eq.
  - rewrite filter_cons_False by done.
    destruct (last (filter _ regs)); [done|].
    by rewrite lookup_insert_ne.
Qed.

Lemma registrations_from_first (seen : list (string * bool))
    (tried : list TemplateClass) (cls : TemplateClass) :
  cls ∈ registrations_from seen tried →
  ∃ before after,
    tried = before ++ cls :: after ∧
    ∀ c, c ∈ before → (name c, is_scene c) ≠ (name cls, is_scene cls).
Proof.
  revert seen. induction tried as [|x tried IH]; intros seen; simpl.
  { by intros ?%elem_of_nil. }
  case_bool_decide as Hx.
  - intros Hin. destruct (registrations_from_elem_of _ _ _ Hin) as [_ Hn].
    destruct (IH _ Hin) as (before & after & -> & Hfirst).
    exists (x :: before), after. split; [done|].
    intros c [->|?]%elem_of_cons; [congruence | by apply Hfirst].
  - intros [->|Hin]%elem_of_cons.
    + exists [], tried. split; [done | by intros c ?%elem_of_nil].
    + destruct (registrations_from_elem_of _ _ _ Hin) as [_ Hn].
      destruct (IH _ Hin) as (before & after & -> & Hfirst).
      exists (x :: before), after. split; [done|].
      intros c [->|?]%elem_of_cons; [|by apply Hfirst].
      intros Heq. apply Hn. rewrite <- Heq. by left.
Qed.

Lemma registrations_from_covers (seen : list (string * bool))
    (tried : list TemplateClass) (cls : TemplateClass) :
  cls ∈ tried →
  (name cls, is_scene cls) ∈ seen ∨
  ∃ r, r ∈ registrations_from seen tried ∧
       (name r, is_scene r) = (name cls, is_scene cls).
Proof.
  revert seen. induction tried as [|x tried IH]; intros seen; simpl.
  { by intros ?%elem_of_nil. }
  intros [->|Hin]%elem_of_cons; case_bool_decide as Hx.
  - by left.
  - right. exists x. split; [by left | done].
  - apply IH, Hin.
  - destruct (IH ((name x, is_scene x) :: seen) Hin)
      as [[Heq|?]%elem_of_cons | (r & Hr & Hkey)].
    + right. exists x. split; [by left | done].
    + by left.
    + right. exists r. split; [by right | done].
Qed.

(** ** The partition of a loaded catalog *)

Lemma catalog_of_kinds (regs : list TemplateClass) :
  Forall (fun cls => is_scene cls = false) (get_components (catalog_of regs)) ∧
  Forall (fun cls => is_scene cls = true) (get_examples (catalog_of regs)).
Proof.
  unfold get_components, get_examples. simpl.
  split; apply Forall_forall; by intros cls [? _]%list_elem_of_filter.
Qed.

Lemma component_not_scene (ast_parse : string -> option (list stmt))
    (samples_dir : option (list Path)) (cat : TemplateCatalog) (comp : TemplateClass) :
  _load ast_parse samples_dir = Ok cat →
  comp ∈ get_components cat → is_scene comp = false.
Proof.
  intros (tried & _ & ->)%load_catalog_of.
  apply (proj1 (Forall_forall _ _) (proj1 (catalog_of_kinds _))).
Qed.

(** C6. In a loaded catalog every component has [is_scene = false] and
    every example has [is_scene = true]. *)
Theorem load_partition (ast_parse : string -> option (list stmt))
    (samples_dir : option (list Path)) (cat : TemplateCatalog) :
  _load ast_parse samples_dir = Ok cat →
  Forall (fun cls => is_scene cls = false) (get_components cat) ∧
  Forall (fun cls => is_scene cls = true) (get_examples cat).
Proof.
  intros (tried & _ & ->)%load_catalog_of. apply catalog_of_kinds.
Qed.

Lemma load_partition_witness :
  _load Samples.sample_parse Samples.demo_dir = Ok (Samples.loaded Samples.demo_dir) ∧
  Forall (fun cls => is_scene cls = false)
         (get_components (Samples.loaded Samples.demo_dir)) ∧
  Forall (fun cls => is_scene cls = true)
         (get_examples (Samples.loaded Samples.demo_dir)).
Proof.
  split; [vm_compute; reflexivity|].
  apply (load_partition Samples.sample_parse Samples.demo_dir).
  vm_compute; reflexivity.
Defined.

(** ** Names in a loaded catalog *)

(** C2, as the code has it. In a loaded catalog the components are the
    registered non-scene attempts and the examples the registered scene
    attempts; each registered entry is the first attempt of its name and
    kind, every attempt has an entry of its name and kind, and so no two
    components share a name and no two examples share a name (a component
    and an example can). [get_by_name] returns the entry of that name that
    was registered last. *)
Theorem load_names (ast_parse : string -> option (list stmt))
    (samples_dir : option (list Path)) (cat : TemplateCatalog) :
  _load ast_parse samples_dir = Ok cat →
  ∃ tried,
    attempts ast_parse (scanned samples_dir) = Ok tried ∧
    get_components cat =
      filter (fun cls => is_scene cls = false) (registrations tried) ∧
    get_examples cat =
      filter (fun cls => is_scene cls = true) (registrations tried) ∧
    (∀ cls, cls ∈ registrations tried →
       ∃ before after,
         tried = before ++ cls :: after ∧
         ∀ c, c ∈ before → (name c, is_scene c) ≠ (name cls, is_scene cls)) ∧
    (∀ cls, cls ∈ tried →
       ∃ r, r ∈ registrations tried ∧
            (name r, is_scene r) = (name cls, is_scene cls)) ∧
    NoDup (name <$> get_components cat) ∧
    NoDup (name <$> get_examples cat) ∧
    (∀ n, get_by_name cat n =
          last (filter (fun cls => name cls = n) (registrations tried))).
Proof.
  intros (tried & Htried & ->)%load_catalog_of. exists tried.
  unfold get_components, get_examples, get_by_name. simpl.
  split; [done|]. split; [done|]. split; [done|]. split.
  { intros cls Hcls. by apply (registrations_from_first []). }
  split.
  { intros cls Hcls.
    destruct (registrations_from_covers [] tried cls Hcls) as [Hin|Hr]; [|done].
    by apply elem_of_nil in Hin. }
  split; [apply registrations_kind_NoDup|].
  split; [apply registrations_kind_NoDup|].
  intros n. rewrite indexed_lookup.
  by destruct (last (filter _ (registrations tried))).
Qed.

Lemma load_names_witness :
  _load Samples.sample_parse Samples.foo_dir = Ok (Samples.loaded Samples.foo_dir) ∧
  NoDup (name <$> get_components (Samples.loaded Samples.foo_dir)) ∧
  NoDup (name <$> get_examples (Samples.loaded Samples.foo_dir)).
Proof.
  split; [vm_compute; reflexivity|].
  destruct (load_names Samples.sample_parse Samples.foo_dir
              (Samples.loaded Samples.foo_dir))
    as (tried & _ & _ & _ & _ & _ & Hc & He & _).
  - vm_compute; reflexivity.
  - split; assumption.
Defined.

(** C2, as the design document states it, fails: the notebook [nb_foo] registers the
    component [Foo] and then the example [Foo]; the two entries share
    their name, and [get_by_name] returns the second one. *)
Lemma load_names_counterexample :
  _load Samples.sample_parse Samples.foo_dir = Ok (Samples.loaded Samples.foo_dir) ∧
  attempts Samples.sample_parse (scanned Samples.foo_dir)
    = Ok [Samples.foo_component; Samples.foo_example] ∧
  get_components (Samples.loaded Samples.foo_dir) = [Samples.foo_component] ∧
  get_examples (Samples.loaded Samples.foo_dir) = [Samples.foo_example] ∧
  name Samples.foo_component = name Samples.foo_example ∧
  get_by_name (Samples.loaded Samples.foo_dir) "Foo" = Some Samples.foo_example ∧
  Samples.foo_example ≠ Samples.foo_component.
Proof.
  repeat split; try (vm_compute; reflexivity). discriminate.
Qed.

(** ** Example sources *)

Lemma catalog_of_lookup (regs : list TemplateClass) (n : string)
    (cls : TemplateClass) :
  _by_name (catalog_of regs) !! n = Some cls → name cls = n ∧ cls ∈ regs.
Proof.
  simpl. rewrite indexed_lookup.
  destruct (last (filter _ regs)) as [c|] eqn:Hlast; [|done].
  intros [= ->]. by apply last_Some_elem_of, list_elem_of_filter in Hlast.
Qed.

(** C7. In a loaded catalog [get_example_source] returns a source exactly
    when the entry the index holds for the name is a scene (an example of
    that name, then), and it is that entry's source; it returns nothing
    exactly when the index holds no entry for the name or holds a
    component. *)
Theorem get_example_source_spec (ast_parse : string -> option (list stmt))
    (samples_dir : option (list Path)) (cat : TemplateCatalog) (n : string) :
  _load ast_parse samples_dir = Ok cat →
  (∀ s, get_example_source cat n = Some s ↔
        ∃ cls, get_by_name cat n = Some cls ∧ name cls = n ∧
               cls ∈ get_examples cat ∧ is_scene cls = true ∧ source cls = s) ∧
  (get_example_source cat n = None ↔
     get_by_name cat n = None ∨
     ∃ cls, get_by_name cat n = Some cls ∧ is_scene cls = false).
Proof.
  intros (tried & _ & ->)%load_catalog_of.
  unfold get_example_source, get_by_name, get_examples.
  destruct (_by_name (catalog_of (registrations tried)) !! n) as [cls|] eqn:Hcls.
  - destruct (catalog_of_lookup _ _ _ Hcls) as [Hname Hin].
    destruct (is_scene cls) eqn:Hs; split.
    + intros s. split.
      * intros [= <-]. exists cls. repeat split; try done.
        simpl. by apply list_elem_of_filter.
      * by intros (c & [= <-] & _ & _ & _ & <-).
    + split; [done|]. intros [?|(c & [= <-] & ?)]; congruence.
    + intros s. split; [done|]. intros (c & [= <-] & _ & _ & ? & _). congruence.
    + split; [|done]. intros _. right. by exists cls.
  - split.
    + intros s. split; [done | by intros (c & ? & _)].
    + split; [by left | done].
Qed.

Lemma get_example_source_spec_witness :
  _load Samples.sample_parse Samples.foo_dir = Ok (Samples.loaded Samples.foo_dir) ∧
  (get_example_source (Samples.loaded Samples.foo_dir) "Bar" = None ↔
     get_by_name (Samples.loaded Samples.foo_dir) "Bar" = None ∨
     ∃ cls, get_by_name (Samples.loaded Samples.foo_dir) "Bar" = Some cls ∧
            is_scene cls = false).
Proof.
  split; [vm_compute; reflexivity|].
  apply (get_example_source_spec Samples.sample_parse Samples.foo_dir
           (Samples.loaded Samples.foo_dir) "Bar").
  vm_compute; reflexivity.
Defined.

(** ** Categories *)

Lemma CATEGORY_MAP_values (k v : string) :
  CATEGORY_MAP !! k = Some v → (k, v) ∈ CATEGORY_TABLE.
Proof. unfold CATEGORY_MAP. apply elem_of_list_to_map_2. Qed.

Lemma CATEGORY_MAP_no_examples (k v : string) :
  CATEGORY_MAP !! k = Some v → v ≠ "examples".
Proof.
  intros Hkv%CATEGORY_MAP_values.
  assert (Forall (fun kv : string * string => kv.2 ≠ "examples") CATEGORY_TABLE)
    as Hall by (unfold CATEGORY_TABLE;
                repeat (apply Forall_cons_2; [simpl; discriminate|]);
                apply Forall_nil_2).
  by apply (proj1 (Forall_forall _ _) Hall (k, v)).
Qed.

Lemma category_of_component (n : string) :
  category_of n false ≠ "examples" ∧
  (CATEGORY_MAP !! n = None → category_of n false = "other").
Proof.
  unfold category_of. destruct (CATEGORY_MAP !! n) as [v|] eqn:Hn; simpl.
  - split; [by eapply CATEGORY_MAP_no_examples | done].
  - split; done.
Qed.

Section Extracted.

Variable ast_parse : string -> option (list stmt).

Lemma extract_class_well_categorised (source notebook_name : string)
    (tree : list stmt) (classes classes' : list TemplateClass) (child : stmt) :
  Forall well_categorised classes →
  extract_class source notebook_name tree classes child = Ok classes' →
  Forall well_categorised classes'.
Proof.
  intros Hall. unfold extract_class. destruct child as [node|]; [|by intros [= <-]].
  intros (stop & _ & Heq)%bind_Ok. cbv zeta in Heq.
  apply Ok_inj in Heq. subst classes'.
  apply Forall_app. split; [exact Hall|].
  apply Forall_cons_2; [|apply Forall_nil_2].
  unfold well_categorised, category_of. cbn [name is_scene category]. reflexivity.
Qed.

Lemma extract_classes_well_categorised (source notebook_name : string)
    (classes : list TemplateClass) :
  _extract_classes_from_source ast_parse source notebook_name = Ok classes →
  Forall well_categorised classes.
Proof.
  unfold _extract_classes_from_source.
  destruct (ast_parse source) as [tree|]; [|by intros [= <-]].
  apply foldM_invariant; [constructor|].
  intros s1 x s2 _ Hs1 Hx. by eapply extract_class_well_categorised.
Qed.

Lemma component_attempts_well_categorised (nb_name : string)
    (component_cell : option string) (tried : list TemplateClass) :
  component_attempts ast_parse nb_name component_cell = Ok tried →
  Forall well_categorised tried.
Proof.
  unfold component_attempts. destruct component_cell as [c|]; [|by intros [= <-]].
  destruct (is_empty c); [by intros [= <-]|].
  intros (classes & Hcl%extract_classes_well_categorised & [= <-])%bind_Ok.
  apply Forall_forall. intros cls [_ Hin]%list_elem_of_filter.
  by apply (proj1 (Forall_forall _ _) Hcl).
Qed.

Lemma example_attempts_well_categorised (nb_name : string)
    (component_cell : option string) (seen tried : list TemplateClass)
    (cell_source : string) :
  Forall well_categorised seen →
  example_attempts ast_parse nb_name component_cell seen cell_source = Ok tried →
  Forall well_categorised tried.
Proof.
  intros Hseen. unfold example_attempts. case_bool_decide; [by intros [= <-]|].
  intros (classes & Hcl%extract_classes_well_categorised & [= <-])%bind_Ok.
  apply Forall_app. split; [done|].
  apply Forall_forall. intros cls [_ Hin]%list_elem_of_filter.
  by apply (proj1 (Forall_forall _ _) Hcl).
Qed.

Lemma notebook_attempts_well_categorised (nb_path : Path)
    (tried : list TemplateClass) :
  notebook_attempts ast_parse nb_path = Ok tried → Forall well_categorised tried.
Proof.
  unfold notebook_attempts.
  intros (cells & _ & (comps & Hcomps & Hfold)%bind_Ok)%bind_Ok.
  revert Hfold. apply foldM_invariant.
  - by eapply component_attempts_well_categorised.
  - intros s1 x s2 _ Hs1. by apply example_attempts_well_categorised.
Qed.

Lemma attempts_well_categorised (notebooks : list Path) (tried : list TemplateClass) :
  attempts ast_parse notebooks = Ok tried → Forall well_categorised tried.
Proof.
  unfold attempts. apply foldM_invariant; [constructor|].
  intros s1 nb_path s2 _ Hs1
    (here & Hhere%notebook_attempts_well_categorised & [= <-])%bind_Ok.
  apply Forall_app. by split.
Qed.

Lemma load_well_categorised (samples_dir : option (list Path))
    (cat : TemplateCatalog) (cls : TemplateClass) :
  _load ast_parse samples_dir = Ok cat →
  cls ∈ get_components cat ∨ cls ∈ get_examples cat →
  well_categorised cls.
Proof.
  intros (tried & Htried%attempts_well_categorised & ->)%load_catalog_of.
  unfold get_components, get_examples. simpl.
  intros [[_ Hin]%list_elem_of_filter | [_ Hin]%list_elem_of_filter];
    apply registrations_from_elem_of in Hin as [Hin _];
    by apply (proj1 (Forall_forall _ _) Htried).
Qed.

(** C9. A class the extractor yields that is not a scene and whose name
    the category table lacks is in category [other]; no value of the table
    is [examples]; so no component of a loaded catalog is in category
    [examples], and [get_by_category] finds nothing there. *)
Theorem no_component_in_examples (samples_dir : option (list Path))
    (cat : TemplateCatalog) :
  _load ast_parse samples_dir = Ok cat →
  (∀ source notebook_name classes cls,
     _extract_classes_from_source ast_parse source notebook_name = Ok classes →
     cls ∈ classes → is_scene cls = false → CATEGORY_MAP !! name cls = None →
     category cls = "other") ∧
  (∀ k v, CATEGORY_MAP !! k = Some v → v ≠ "examples") ∧
  (∀ comp, comp ∈ get_components cat → category comp ≠ "examples") ∧
  get_by_category cat "examples" = [].
Proof.
  intros Hload. split.
  { intros source notebook_name classes cls Hcl%extract_classes_well_categorised
      Hin Hs Hn.
    rewrite (proj1 (Forall_forall _ _) Hcl cls Hin), Hs.
    by apply category_of_component. }
  split; [apply CATEGORY_MAP_no_examples|].
  assert (∀ comp, comp ∈ get_components cat → category comp ≠ "examples") as Hcomp.
  { intros comp Hin.
    rewrite (load_well_categorised _ _ comp Hload (or_introl Hin)).
    rewrite (component_not_scene _ _ _ comp Hload Hin).
    apply category_of_component. }
  split; [done|].
  unfold get_by_category. apply filter_none.
  intros comp Hin. by apply Hcomp.
Qed.

End Extracted.

Lemma no_component_in_examples_witness :
  _load Samples.sample_parse Samples.demo_dir = Ok (Samples.loaded Samples.demo_dir) ∧
  get_examples (Samples.loaded Samples.demo_dir) ≠ [] ∧
  get_by_category (Samples.loaded Samples.demo_dir) "examples" = [].
Proof.
  split; [vm_compute; reflexivity|].
  split; [intros Hnone; vm_compute in Hnone; discriminate Hnone|].
  apply (no_component_in_examples Samples.sample_parse Samples.demo_dir
           (Samples.loaded Samples.demo_dir)).
  vm_compute; reflexivity.
Defined.

(** ** A notebook that cannot be read *)

(** C1, as the code has it. Reading a notebook whose file does not decode
    raises the decoding error, and [_load] has no handler: once the
    notebooks in front have loaded, a notebook whose cells cannot be
    extracted ends the whole load with its exception. *)
Theorem load_aborts_on_malformed (ast_parse : string -> option (list stmt))
    (before after : list Path) (bad : Path) (st : load_state) (e : exn) :
  foldM (load_notebook ast_parse) initial_state before = Ok st →
  json_load bad = Raise e →
  _extract_code_cells bad = Raise e ∧
  _load ast_parse (Some (before ++ bad :: after)) = Raise e ∧
  (∀ other e', _extract_code_cells other = Raise e' →
               _load ast_parse (Some (before ++ other :: after)) = Raise e').
Proof.
  intros Hbefore Hbad.
  assert (∀ other e', _extract_code_cells other = Raise e' →
            _load ast_parse (Some (before ++ other :: after)) = Raise e') as Hload.
  { intros other e' Hother. unfold _load.
    assert (foldM (load_notebook ast_parse) initial_state (before ++ other :: after)
            = Raise e') as ->.
    { rewrite foldM_app, Hbefore. simpl. unfold load_notebook at 1.
      by rewrite Hother. }
    by destruct (before ++ other :: after) eqn:Hnb; [destruct before|]. }
  assert (_extract_code_cells bad = Raise e) as Hcells.
  { unfold _extract_code_cells. by rewrite Hbad. }
  split; [done|]. split; [by apply Hload | done].
Qed.

Lemma load_aborts_on_malformed_witness :
  json_load Samples.nb_corrupt = Raise JSONDecodeError ∧
  _load Samples.sample_parse (Some ([Samples.nb_demo] ++ Samples.nb_corrupt :: []))
  = Raise JSONDecodeError.
Proof.
  split; [reflexivity|].
  edestruct (load_aborts_on_malformed Samples.sample_parse [Samples.nb_demo] []
               Samples.nb_corrupt) as (_ & Hload & _).
  - vm_compute; reflexivity.
  - reflexivity.
  - exact Hload.
Defined.

(** C1, as the design document states it, fails: [nb_demo] alone loads into a catalog
    with components, and with the corrupt file behind it the load raises
    instead of keeping that catalog. *)
Lemma load_aborts_on_malformed_counterexample :
  _extract_code_cells Samples.nb_corrupt = Raise JSONDecodeError ∧
  _load Samples.sample_parse (Some [Samples.nb_demo])
  = Ok (Samples.loaded (Some [Samples.nb_demo])) ∧
  length (get_components (Samples.loaded (Some [Samples.nb_demo]))) = 3%nat ∧
  _load Samples.sample_parse (Some [Samples.nb_demo; Samples.nb_corrupt])
  = Raise JSONDecodeError ∧
  _load Samples.sample_parse (Some [Samples.nb_corrupt]) = Raise JSONDecodeError.
Proof. repeat split; vm_compute; reflexivity. Qed.

(** ** Component sources *)

Lemma append_empty (s t : string) :
  s +:+ t = EmptyString → s = EmptyString ∧ t = EmptyString.
Proof. by destruct s. Qed.

Lemma join_empty (sep : string) (parts : list string) :
  sep ≠ EmptyString →
  join sep parts = EmptyString ↔ parts = [] ∨ parts = [EmptyString].
Proof.
  intros Hsep. destruct parts as [|p [|q rest]]; simpl.
  - split; [by left | done].
  - split; [intros ->; by right | by intros [|[= ->]]].
  - split; [|by intros [|]].
    intros [_ [? _]%append_empty]%append_empty. done.
Qed.

(** What [get_component_source] returns. Without names, the sources of
    all components in registration order with [blank_lines] between
    neighbours; with names, the same over the components whose name is
    among them, in registration order, and empty when none is. As long as
    no component has an empty source, the result without names is empty
    exactly when there is no component. *)
Lemma get_component_source_spec (cat : TemplateCatalog) :
  get_component_source cat None = join blank_lines (source <$> get_components cat) ∧
  (∀ names,
     get_component_source cat (Some names) =
     join blank_lines
          (source <$> filter (fun c => name c ∈ names) (get_components cat))) ∧
  (∀ names,
     filter (fun c => name c ∈ names) (get_components cat) = [] →
     get_component_source cat (Some names) = EmptyString) ∧
  ((∀ c, c ∈ get_components cat → source c ≠ EmptyString) →
   (get_component_source cat None = EmptyString ↔ get_components cat = [])).
Proof.
  assert (∀ targets : list TemplateClass,
            match targets with
            | [] => EmptyString
            | _ => join blank_lines (source <$> targets)
            end = join blank_lines (source <$> targets)) as Hjoin
    by (by intros [|]).
  assert (∀ names,
            get_component_source cat (Some names) =
            join blank_lines
                 (source <$> filter (fun c => name c ∈ names) (get_components cat)))
    as Hnames.
  { intros names. unfold get_component_source. fold blank_lines. rewrite Hjoin.
    do 2 f_equal. apply list_filter_iff. intros c. apply elem_of_list_to_set. }
  assert (get_component_source cat None
          = join blank_lines (source <$> get_components cat)) as Hall.
  { unfold get_component_source. fold blank_lines. by rewrite Hjoin. }
  split; [done|]. split; [done|]. split.
  { intros names Hnone. by rewrite Hnames, Hnone. }
  intros Hsources. rewrite Hall, join_empty by done.
  destruct (get_components cat) as [|c [|d rest]]; simpl.
  - split; [done | by left].
  - split; [|done]. intros [|[= Hc]]; [done|].
    destruct (Hsources c); [by left | done].
  - split; [by intros [|] | done].
Qed.

Lemma get_component_source_spec_witness :
  get_component_source (Samples.loaded Samples.demo_dir) (Some ["Wire"; "B"])
  = "class B(VGroup):" +:+ nl +:+ "    pass" +:+ blank_lines +:+
    "class Wire(VGroup): pass".
Proof.
  destruct (get_component_source_spec (Samples.loaded Samples.demo_dir))
    as (_ & -> & _).
  vm_compute; reflexivity.
Defined.

(** C5. The code at the failing input, a directory whose one notebook has
    the code cell [cell_form_feed]: a form feed and then the statement of
    class [A]. The text splits into lines at the form feed, the line
    numbers of the parser do not count it, so the slice for the class is
    the line of the form feed alone and the source kept for [A] is
    empty. The load registers this one component, and the combined source
    of all components is the empty string although the catalog has a
    component: there it is not so that the result is empty only if there
    is no component. *)
Theorem get_component_source_form_feed :
  _extract_code_cells Samples.nb_form_feed = Ok [Samples.cell_form_feed] ∧
  _load Samples.sample_parse Samples.feed_dir = Ok (Samples.loaded Samples.feed_dir) ∧
  (∃ c, get_components (Samples.loaded Samples.feed_dir) = [c] ∧
        name c = "A" ∧ source c = EmptyString) ∧
  get_component_source (Samples.loaded Samples.feed_dir) None = EmptyString ∧
  ¬ (get_component_source (Samples.loaded Samples.feed_dir) None = EmptyString ↔
     get_components (Samples.loaded Samples.feed_dir) = []).
Proof.
  split; [vm_compute; reflexivity|]. split; [vm_compute; reflexivity|].
  split; [eexists; repeat split; vm_compute; reflexivity|].
  split; [vm_compute; reflexivity|].
  intros [Hempty _]. assert (get_component_source (Samples.loaded Samples.feed_dir)
                               None = EmptyString) as Hsource
    by (vm_compute; reflexivity).
  apply Hempty in Hsource. vm_compute in Hsource. discriminate Hsource.
Qed.

(** ** The summary *)

#[local] Arguments label_of : simpl never.
#[local] Arguments heading : simpl never.
#[local] Arguments bullet : simpl never.
#[local] Arguments label_for : simpl never.

Lemma fold_summary_step (comps : list TemplateClass) (lines : list string)
    (current_cat : string) :
  (fold_left summary_step comps (lines, current_cat)).1 =
  lines ++ summary_from current_cat comps.
Proof.
  revert lines current_cat. induction comps as [|comp comps IH];
    intros lines current_cat; cbn [fold_left summary_from].
  { by rewrite app_nil_r. }
  unfold summary_step at 2. cbn [fst snd].
  case_bool_decide as Hlabel; cbn [fst snd]; rewrite IH.
  - by rewrite <- !app_assoc.
  - rewrite Hlabel. by rewrite <- !app_assoc.
Qed.

Lemma summary_from_blocks (comps front rest : list TemplateClass)
    (current_cat : string) :
  comps = front ++ rest →
  match last front with
  | Some p => current_cat = label_of p
  | None => current_cat = EmptyString ∧
            ∀ c, head rest = Some c → label_of c ≠ EmptyString
  end →
  summary_from current_cat rest =
  concat (imap (fun i => summary_block comps (length front + i)) rest).
Proof.
  revert front current_cat. induction rest as [|c rest IH];
    intros front current_cat Hcomps Hlast; [done|].
  cbn [summary_from]. rewrite imap_cons. cbn [concat].
  rewrite (IH (front ++ [c]) (label_of c)).
  - rewrite Nat.add_0_r.
    replace (imap (fun i => summary_block comps (length (front ++ [c]) + i)) rest)
      with (imap ((fun i => summary_block comps (length front + i)) ∘ S) rest).
    2: { apply imap_ext. intros i x _. cbn [compose].
         rewrite length_app. cbn [length]. f_equal. lia. }
    generalize (concat (imap ((fun i => summary_block comps (length front + i)) ∘ S)
                             rest)).
    intros tail. unfold summary_block. rewrite <- app_assoc. cbn [app].
    f_equal.
    assert (starts_run comps (length front)
            = bool_decide (label_of c ≠ current_cat)) as ->; [|done].
    destruct (last front) as [p|] eqn:Hp.
    + apply last_Some in Hp as [front' ->]. subst current_cat.
      rewrite length_app. cbn [length]. rewrite Nat.add_1_r.
      cbn [starts_run].
      rewrite Hcomps, <- !app_assoc. cbn [app].
      rewrite (lookup_app_r front' _ (length front')) by lia.
      rewrite (lookup_app_r front' _ (S (length front'))) by lia.
      replace (S (length front') - length front')%nat with 1%nat by lia.
      rewrite Nat.sub_diag. cbn [lookup list_lookup fmap option_fmap option_map].
      apply bool_decide_ext. split; intros Hne Heq; apply Hne; congruence.
    + apply last_None in Hp as ->. destruct Hlast as [-> Hhead].
      cbn [length starts_run].
      symmetry. apply bool_decide_eq_true_2. by apply Hhead.
  - by rewrite Hcomps, <- app_assoc.
  - by rewrite last_snoc.
Qed.

Lemma labels_distinct_holds : labels_distinct = true.
Proof. vm_compute; reflexivity. Qed.

Lemma label_for_nonempty (cat : string) :
  cat ∈ COMPONENT_CATEGORIES → label_for cat ≠ EmptyString.
Proof.
  intros Hin%list_elem_of_In. pose proof labels_distinct_holds as Hd.
  unfold labels_distinct in Hd. rewrite forallb_forall in Hd.
  apply Hd, andb_prop in Hin as [Hne _].
  intros Heq. by rewrite Heq in Hne.
Qed.

Lemma label_for_inj (a b : string) :
  a ∈ COMPONENT_CATEGORIES → b ∈ COMPONENT_CATEGORIES →
  label_for a = label_for b → a = b.
Proof.
  intros Ha%list_elem_of_In Hb%list_elem_of_In Heq.
  pose proof labels_distinct_holds as Hd.
  unfold labels_distinct in Hd. rewrite forallb_forall in Hd.
  apply Hd, andb_prop in Ha as [_ Hall].
  rewrite forallb_forall in Hall. specialize (Hall b Hb).
  rewrite Heq, String.eqb_refl in Hall. simpl in Hall.
  by apply String.eqb_eq.
Qed.

Lemma component_category (ast_parse : string -> option (list stmt))
    (samples_dir : option (list Path)) (cat : TemplateCatalog) (comp : TemplateClass) :
  _load ast_parse samples_dir = Ok cat →
  comp ∈ get_components cat →
  category comp ∈ COMPONENT_CATEGORIES.
Proof.
  intros Hload Hin.
  rewrite (load_well_categorised _ _ _ comp Hload (or_introl Hin)).
  rewrite (component_not_scene _ _ _ comp Hload Hin).
  unfold category_of, COMPONENT_CATEGORIES.
  destruct (CATEGORY_MAP !! name comp) as [v|] eqn:Hv; [|by left].
  right. apply (list_elem_of_fmap_2 snd CATEGORY_TABLE (name comp, v)).
  by apply CATEGORY_MAP_values.
Qed.

Lemma starts_run_first (comps : list TemplateClass) (i : nat) (c : TemplateClass) :
  (∀ comp, comp ∈ comps → category comp ∈ COMPONENT_CATEGORIES) →
  contiguous comps →
  comps !! i = Some c →
  starts_run comps i = true ↔
  ∀ (j : nat) c', (j < i)%nat → comps !! j = Some c' → category c' ≠ category c.
Proof.
  intros Hcats Hcont Hi. destruct i as [|i]; simpl.
  { split; [intros _ j c' Hj; lia | done]. }
  destruct (lookup_lt_is_Some_2 comps i) as [p Hp].
  { apply lookup_lt_Some in Hi. lia. }
  rewrite Hi, Hp. simpl. rewrite bool_decide_eq_true. split.
  - intros Hne j c' Hj Hc' Heq.
    destruct (decide (j = i)) as [->|Hji].
    + rewrite Hp in Hc'. injection Hc' as <-. apply Hne.
      unfold label_of. by rewrite Heq.
    + assert (category p = category c') as Hpc.
      { apply (Hcont j i (S i) c' p c); try done; lia. }
      apply Hne. unfold label_of. by rewrite Hpc, Heq.
  - intros Hfirst [= Heq]. apply (Hfirst i p); [lia | done |].
    apply label_for_inj; [| |done].
    + apply Hcats. by eapply list_elem_of_lookup_2.
    + apply Hcats. by eapply list_elem_of_lookup_2.
Qed.




(** ** The cases of the test suite *)

Lemma find_component_cell_spec_witness :
  ∃ i : nat,
    [Samples.cell_my_scene; Samples.cell_foo; Samples.cell_abc; Samples.cell_gates]
      !! i = Some Samples.cell_abc ∧
    (0 < score Samples.sample_parse Samples.cell_abc)%nat ∧
    (∀ (j : nat) c,
       [Samples.cell_my_scene; Samples.cell_foo; Samples.cell_abc; Samples.cell_gates]
         !! j = Some c →
       (score Samples.sample_parse c ≤ score Samples.sample_parse Samples.cell_abc)%nat) ∧
    (∀ (j : nat) c, (j < i)%nat →
       [Samples.cell_my_scene; Samples.cell_foo; Samples.cell_abc; Samples.cell_gates]
         !! j = Some c →
       (score Samples.sample_parse c < score Samples.sample_parse Samples.cell_abc)%nat).
Proof.
  pose proof (find_component_cell_spec Samples.sample_parse
                [Samples.cell_my_scene; Samples.cell_foo; Samples.cell_abc;
                 Samples.cell_gates]) as [Hbest _].
  assert (_find_component_cell Samples.sample_parse
            [Samples.cell_my_scene; Samples.cell_foo; Samples.cell_abc;
             Samples.cell_gates] = Some Samples.cell_abc) as Heq
    by (vm_compute; reflexivity).
  rewrite Heq in Hbest. exact Hbest.
Defined.

Example test_finds_cell_with_most_components :
  _find_component_cell Samples.sample_parse [Samples.cell_abc; Samples.cell_my_scene]
  = Some Samples.cell_abc.
Proof. vm_compute; reflexivity. Qed.

Example test_empty_list_returns_none :
  _find_component_cell Samples.sample_parse [] = None.
Proof. reflexivity. Qed.

Example test_all_scenes_returns_none :
  _find_component_cell Samples.sample_parse [Samples.cell_my_scene] = None.
Proof. vm_compute; reflexivity. Qed.

Example test_scene_subclass :
  _extract_classes_from_source Samples.sample_parse Samples.cell_my_scene "test_nb"
  = Ok [ {| name := "MyScene";
            source := "class MyScene(Scene):" +:+ nl +:+
                      "    def construct(self):" +:+ nl +:+ "        pass";
            base_classes := ["Scene"];
            is_scene := true;
            requires_latex := false;
            category := "examples";
            notebook := "test_nb" |} ].
Proof. vm_compute; reflexivity. Qed.

Example test_skips_blank_cells :
  _extract_code_cells
    (Samples.notebook_of "test"
       [ Samples.code_cell EmptyString;
         Samples.code_cell ("  " +:+ nl +:+ "  ");
         JObject [ ("cell_type", JString "markdown");
                   ("source", JArray [JString "# Title"]) ];
         JObject [ ("cell_type", JString "code");
                   ("source", JString "single_string_source") ] ])
  = Ok ["single_string_source"].
Proof. vm_compute; reflexivity. Qed.

Example splitlines_keeps_ends :
  splitlines ("a" +:+ String "013"%char nl +:+ "b" +:+ String "013"%char "c" +:+ nl
              +:+ String "013"%char "d")
  = [ "a" +:+ String "013"%char nl; "b" +:+ String "013"%char EmptyString;
      "c" +:+ nl; String "013"%char EmptyString; "d" ].
Proof. vm_compute; reflexivity. Qed.

(** * Further properties *)

(** ** Strings *)

Lemma append_cons (c : ascii) (s t : string) :
  String c s +:+ t = String c (s +:+ t).
Proof. reflexivity. Qed.

Lemma append_nil_r (s : string) : s +:+ EmptyString = s.
Proof. induction s as [|c s IH]; [done|]. by rewrite append_cons, IH. Qed.

Lemma append_assoc (s t u : string) : (s +:+ t) +:+ u = s +:+ t +:+ u.
Proof. induction s as [|c s IH]; [done|]. by rewrite !append_cons, IH. Qed.

Lemma join_empty_cons (p : string) (parts : list string) :
  join EmptyString (p :: parts) = p +:+ join EmptyString parts.
Proof. destruct parts; [by rewrite append_nil_r | done]. Qed.

Lemma join_empty_app (l1 l2 : list string) :
  join EmptyString (l1 ++ l2) = join EmptyString l1 +:+ join EmptyString l2.
Proof.
  induction l1 as [|p l1 IH]; [done|].
  change ((p :: l1) ++ l2) with (p :: (l1 ++ l2)).
  by rewrite !join_empty_cons, IH, append_assoc.
Qed.

(** Joining the lines of a text gives the text back. *)
Lemma splitlines_from_join_bounded (n : nat) (s cur : string) :
  (String.length s ≤ n)%nat →
  join EmptyString (splitlines_from cur s) = cur +:+ s.
Proof.
  revert s cur. induction n as [|n IH]; intros s cur Hn.
  { destruct s; [|simpl in Hn; lia]. cbn [splitlines_from].
    destruct cur; [done | by rewrite append_nil_r]. }
  destruct s as [|c s]; cbn [splitlines_from].
  { destruct cur; [done | by rewrite append_nil_r]. }
  simpl in Hn. case_bool_decide as Hcr.
  - destruct s as [|d s].
    + rewrite join_empty_cons. cbn [splitlines_from is_empty join].
      by rewrite append_nil_r.
    + simpl in Hn. destruct (decide (d = "010"%char)) as [->|Hd].
      * rewrite join_empty_cons, IH by lia. by rewrite !append_assoc.
      * assert (match d with
                | "010"%char =>
                    (cur +:+ String c nl) :: splitlines_from EmptyString s
                | _ => (cur +:+ String c EmptyString)
                       :: splitlines_from EmptyString (String d s)
                end
                = (cur +:+ String c EmptyString)
                  :: splitlines_from EmptyString (String d s)) as ->.
        { destruct d as [[] [] [] [] [] [] [] []]; try reflexivity. done. }
        rewrite join_empty_cons, IH by (simpl; lia).
        by rewrite !append_assoc.
  - destruct (is_linebreak c).
    + rewrite join_empty_cons, IH by lia. by rewrite !append_assoc.
    + rewrite IH by lia. by rewrite !append_assoc.
Qed.

Lemma splitlines_join (s : string) : join EmptyString (splitlines s) = s.
Proof. by apply (splitlines_from_join_bounded (String.length s)). Qed.

Lemma rstrip_empty_iff (s : string) :
  rstrip s = EmptyString ↔ lstrip s = EmptyString.
Proof.
  induction s as [|c s IH]; [done|]. cbn [rstrip lstrip].
  destruct (is_space c); simpl.
  - rewrite <- IH. destruct (rstrip s); simpl; split; done.
  - rewrite andb_false_r. split; done.
Qed.

Lemma rstrip_idempotent (s : string) : rstrip (rstrip s) = rstrip s.
Proof.
  induction s as [|c s IH]; [done|]. cbn [rstrip].
  destruct (is_empty (rstrip s) && is_space c) eqn:Hb; [done|].
  cbn [rstrip]. by rewrite IH, Hb.
Qed.

Lemma rstrip_prefix (s : string) : ∃ t, s = rstrip s +:+ t.
Proof.
  induction s as [|c s [t IH]]; [by exists EmptyString|]. cbn [rstrip].
  destruct (is_empty (rstrip s) && is_space c).
  - by exists (String c s).
  - exists t. by rewrite append_cons, <- IH.
Qed.

Lemma strip_idempotent (s : string) : strip (strip s) = strip s.
Proof.
  unfold strip.
  assert (∀ t, lstrip (rstrip (lstrip t)) = rstrip (lstrip t)) as Hl.
  { intros t. induction t as [|c t IH]; [done|]. cbn [lstrip].
    destruct (is_space c) eqn:Hc; [done|].
    cbn [rstrip]. rewrite Hc, andb_false_r. cbn [lstrip]. by rewrite Hc. }
  by rewrite Hl, rstrip_idempotent.
Qed.

(** A text with a character that is not white space does not strip to
    nothing. *)
Lemma strip_not_empty (front back : string) (c : ascii) :
  is_space c = false → is_empty (strip (front +:+ String c back)) = false.
Proof.
  intros Hc. unfold strip.
  destruct (rstrip (lstrip (front +:+ String c back))) eqn:Hr; [|done].
  apply rstrip_empty_iff in Hr.
  assert (∀ t, lstrip (lstrip t) = lstrip t) as Hll.
  { intros t. induction t as [|d t IH]; [done|]. cbn [lstrip].
    destruct (is_space d) eqn:Hd; [done|]. cbn [lstrip]. by rewrite Hd. }
  rewrite Hll in Hr. exfalso. clear Hll. revert Hr.
  induction front as [|d front IH].
  - cbn [lstrip String.append]. change (EmptyString +:+ String c back)
      with (String c back). cbn [lstrip]. by rewrite Hc.
  - rewrite append_cons. cbn [lstrip]. by destruct (is_space d).
Qed.

(** ** More on the cell extractor *)

Lemma extract_cell_outcome (acc : list string) (cell : json) :
  extract_cell acc cell =
  match extract_cell [] cell with
  | Ok r => Ok (acc ++ r)
  | Raise e => Raise e
  end.
Proof.
  unfold extract_cell.
  destruct (get cell "cell_type" JNull) as [ty|]; simpl; [|done].
  destruct (differs_from_code ty); [by rewrite app_nil_r|].
  destruct (get cell "source" (JArray [])) as [src|]; simpl; [|done].
  destruct (match src with
            | JArray items => join_items items
            | JString s => Ok s
            | _ => Raise AttributeError
            end) as [text|]; simpl; [|done].
  destruct (is_empty (strip text)); [by rewrite app_nil_r | done].
Qed.

Lemma extract_cells_outcome (acc : list string) (items : list json) :
  foldM extract_cell acc items =
  match foldM extract_cell [] items with
  | Ok r => Ok (acc ++ r)
  | Raise e => Raise e
  end.
Proof.
  revert acc. induction items as [|cell items IH]; intros acc; simpl.
  { by rewrite app_nil_r. }
  rewrite (extract_cell_outcome acc).
  destruct (extract_cell [] cell) as [r|]; [|done].
  rewrite (IH (acc ++ r)), (IH r).
  destruct (foldM extract_cell [] items); [|done]. by rewrite app_assoc.
Qed.

Lemma extract_cell_not_blank (acc r : list string) (cell : json) :
  Forall (fun c => is_empty (strip c) = false) acc →
  extract_cell acc cell = Ok r →
  Forall (fun c => is_empty (strip c) = false) r.
Proof.
  intros Hacc. unfold extract_cell.
  intros (ty & _ & Hrest)%bind_Ok.
  destruct (differs_from_code ty); [by injection Hrest as <-|].
  apply bind_Ok in Hrest as (src & _ & (text & _ & Hrest)%bind_Ok).
  destruct (is_empty (strip text)) eqn:Hblank; injection Hrest as <-; [done|].
  apply Forall_app. split; [done|]. by apply Forall_singleton.
Qed.

Lemma extracted_cells_found (ast_parse : string -> option (list stmt))
    (cells : list string) (c : string) :
  _find_component_cell ast_parse cells = Some c →
  c ∈ cells ∧ (0 < score ast_parse c)%nat.
Proof.
  unfold _find_component_cell. intros Hc.
  pose proof (selected_fold ast_parse cells [] (None, O)) as Hsel.
  simpl in Hsel.
  destruct (fold_left (find_step ast_parse) cells (None, O)) as [b n].
  simpl in Hc. subst b. simpl in Hsel.
  destruct Hsel as (i & Hi & Hsc & Hpos & _).
  { split; [done | by intros x Hx%elem_of_nil]. }
  split; [by eapply list_elem_of_lookup_2 | lia].
Qed.

(** No cell that [_extract_code_cells] returns is blank; the component
    cell chosen among them is one of them, so it is never the empty
    string. *)
Theorem extracted_cells_not_blank (ast_parse : string -> option (list stmt))
    (nb : Path) (cells : list string) :
  _extract_code_cells nb = Ok cells →
  Forall (fun c => is_empty (strip c) = false) cells ∧
  ∀ c, _find_component_cell ast_parse cells = Some c →
       c ∈ cells ∧ is_empty c = false.
Proof.
  intros Hcells.
  assert (Forall (fun c => is_empty (strip c) = false) cells) as Hall.
  { revert Hcells. unfold _extract_code_cells.
    intros (v & _ & (cv & _ & (items & _ & Hfold)%bind_Ok)%bind_Ok)%bind_Ok.
    revert Hfold. apply foldM_invariant; [constructor|].
    intros s1 x s2 _. apply extract_cell_not_blank. }
  split; [done|]. intros c Hc.
  destruct (extracted_cells_found ast_parse cells c Hc) as [Hin _].
  split; [done|].
  apply (proj1 (Forall_forall _ _) Hall) in Hin. by destruct c.
Qed.

Lemma extracted_cells_not_blank_witness :
  _extract_code_cells Samples.nb_demo = Ok [Samples.cell_abc; Samples.cell_my_scene] ∧
  Forall (fun c => is_empty (strip c) = false)
         [Samples.cell_abc; Samples.cell_my_scene].
Proof.
  split; [vm_compute; reflexivity|].
  apply (extracted_cells_not_blank Samples.sample_parse Samples.nb_demo).
  vm_compute; reflexivity.
Defined.

(** The cells of a notebook are read one by one: the cells of two
    notebooks put behind each other give the two results behind each
    other. *)
Theorem extract_code_cells_app (n : string) (a b : list json)
    (ra rb : list string) :
  _extract_code_cells (notebook_with n a) = Ok ra →
  _extract_code_cells (notebook_with n b) = Ok rb →
  _extract_code_cells (notebook_with n (a ++ b)) = Ok (ra ++ rb).
Proof.
  unfold _extract_code_cells, notebook_with. simpl. intros Ha Hb.
  by rewrite foldM_app, Ha, extract_cells_outcome, Hb.
Qed.

Lemma extract_code_cells_app_witness :
  _extract_code_cells
    (notebook_with "two" ([Samples.code_cell Samples.cell_foo] ++
                          [MoreSamples.markdown_cell; Samples.code_cell Samples.cell_bar]))
  = Ok ([Samples.cell_foo] ++ [Samples.cell_bar]).
Proof.
  apply (extract_code_cells_app "two"); vm_compute; reflexivity.
Defined.

Lemma join_items_strings (frags : list string) :
  join_items (JString <$> frags) = Ok (join EmptyString frags).
Proof.
  induction frags as [|f frags IH]; [done|].
  rewrite fmap_cons. cbn [join_items]. by rewrite IH, join_empty_cons.
Qed.

(** A cell whose source is a list of fragments is read like the cell
    whose source is the one string that the fragments make up, put
    together without a separator. *)
Theorem extract_cell_fragments (acc : list string)
    (listed joined : list (string * json)) (frags : list string) :
  dict_lookup "cell_type" listed = dict_lookup "cell_type" joined →
  dict_lookup "source" listed = Some (JArray (JString <$> frags)) →
  dict_lookup "source" joined = Some (JString (join EmptyString frags)) →
  extract_cell acc (JObject listed) = extract_cell acc (JObject joined).
Proof.
  intros Hty Hl Hj. unfold extract_cell, get. rewrite Hty, Hl, Hj. simpl.
  by rewrite join_items_strings.
Qed.

Lemma extract_cell_fragments_witness :
  extract_cell []
    (JObject [ ("cell_type", JString "code");
               ("source", JArray (JString <$> ["x = 1" +:+ nl; "y = 2"])) ])
  = extract_cell []
      (JObject [ ("source", JString (join EmptyString ["x = 1" +:+ nl; "y = 2"]));
                 ("cell_type", JString "code") ]).
Proof.
  apply (extract_cell_fragments [] _ _ ["x = 1" +:+ nl; "y = 2"]); reflexivity.
Defined.

(** A fault in one cell ends the extraction with its exception, whatever
    cells follow, once the cells in front of it have been read: a cell
    that is not an object and a code cell whose source is null, a number,
    a truth value or an object raise [AttributeError]; a code cell with a
    fragment that is not a string raises [TypeError]. *)
Theorem extract_code_cells_faulty_cell (n : string) (before after : list json)
    (cell : json) (read : list string) :
  _extract_code_cells (notebook_with n before) = Ok read →
  (match cell with JObject _ => False | _ => True end →
   _extract_code_cells (notebook_with n (before ++ cell :: after))
   = Raise AttributeError) ∧
  (∀ members src,
     cell = JObject members →
     dict_lookup "cell_type" members = Some (JString "code") →
     dict_lookup "source" members = Some src →
     match src with
     | JArray items =>
         (∃ front item back,
            items = (JString <$> front) ++ item :: back ∧
            match item with JString _ => False | _ => True end) →
         _extract_code_cells (notebook_with n (before ++ cell :: after))
         = Raise TypeError
     | JString _ => True
     | _ => _extract_code_cells (notebook_with n (before ++ cell :: after))
            = Raise AttributeError
     end).
Proof.
  unfold _extract_code_cells, notebook_with. simpl. intros Hread.
  assert (∀ e, extract_cell read cell = Raise e →
               foldM extract_cell [] (before ++ cell :: after) = Raise e) as Hfault.
  { intros e He. rewrite foldM_app, Hread. simpl. by rewrite He. }
  split.
  - intros Hcell. apply Hfault. by destruct cell.
  - intros members src -> Hty Hsrc.
    assert (∀ e, match src with
                 | JArray items => join_items items
                 | JString s => Ok s
                 | _ => Raise AttributeError
                 end = Raise e →
                 extract_cell read (JObject members) = Raise e) as Hsource.
    { intros e He. unfold extract_cell, get. rewrite Hty, Hsrc. simpl.
      by rewrite He. }
    destruct src as [|b|lit|s|items|ms]; try (by apply Hfault, Hsource); [done|].
    intros (front & item & back & -> & Hitem). apply Hfault, Hsource.
    clear -Hitem. induction front as [|f front IH].
    + by destruct item.
    + rewrite fmap_cons. change ((JString f :: (JString <$> front)) ++ item :: back)
        with (JString f :: ((JString <$> front) ++ item :: back)).
      cbn [join_items]. by rewrite IH.
Qed.

Lemma extract_code_cells_faulty_cell_witness :
  _extract_code_cells (notebook_with "bad" [Samples.code_cell Samples.cell_foo])
  = Ok [Samples.cell_foo] ∧
  _extract_code_cells
    (notebook_with "bad" ([Samples.code_cell Samples.cell_foo] ++
                          JString "code" :: [Samples.code_cell Samples.cell_bar]))
  = Raise AttributeError.
Proof.
  split; [vm_compute; reflexivity|].
  destruct (extract_code_cells_faulty_cell "bad"
              [Samples.code_cell Samples.cell_foo]
              [Samples.code_cell Samples.cell_bar] (JString "code")
              [Samples.cell_foo]) as [Hfault _].
  - vm_compute; reflexivity.
  - by apply Hfault.
Defined.

(** ** More on the class extractor *)

Lemma py_slice_infix {A : Type} (l : list A) (start stop : Z) :
  ∃ front back, l = front ++ py_slice l start stop ++ back.
Proof.
  unfold py_slice.
  set (a := Z.to_nat (if start <? 0 then Z.max (start + len l) 0
                      else Z.min start (len l))).
  set (n := Z.to_nat _).
  exists (take a l), (drop n (drop a l)).
  by rewrite (take_drop n), (take_drop a).
Qed.

Lemma name_bases_elem_of (node : ClassDef) (b : string) :
  b ∈ name_bases node ↔ Name b ∈ bases node.
Proof.
  unfold name_bases. induction (bases node) as [|base rest IH]; cbn [flat_map].
  { split; intros H; by apply elem_of_nil in H. }
  rewrite elem_of_app, elem_of_cons, IH.
  destruct base as [id|value attr|text]; cbn [elem_of].
  - rewrite list_elem_of_singleton. split; intros [?|?]; try (by right).
    + left. by subst.
    + left. congruence.
  - split; [intros [H|?]; [by apply elem_of_nil in H | by right]
           | intros [?|?]; [done | by right]].
  - split; [intros [H|?]; [by apply elem_of_nil in H | by right]
           | intros [?|?]; [done | by right]].
Qed.

Section ExtractedClasses.

Variable ast_parse : string -> option (list stmt).

Lemma extract_class_extracted (cell_source notebook_name : string) (tree : list stmt)
    (classes classes' : list TemplateClass) (node : ClassDef) :
  extract_class cell_source notebook_name tree classes (Class node) = Ok classes' →
  ∃ cls, classes' = classes ++ [cls] ∧
         extracted_from notebook_name cell_source node cls.
Proof.
  unfold extract_class. intros (stop & _ & Heq)%bind_Ok. cbv zeta in Heq.
  apply Ok_inj in Heq. subst classes'. eexists. split; [done|].
  unfold extracted_from. cbn [name base_classes is_scene notebook requires_latex
                               source].
  split; [done|]. split; [done|].
  split; [symmetry; apply scene_bases_agree|]. split; [done|].
  split; [unfold well_categorised, category_of;
          cbn [name is_scene category]; reflexivity|].
  split; [done|]. split; [apply rstrip_idempotent|].
  destruct (py_slice_infix (splitlines cell_source) (lineno node - 1) stop)
    as (front & back & Hlines).
  destruct (rstrip_prefix
              (join EmptyString (py_slice (splitlines cell_source) (lineno node - 1) stop)))
    as [t Ht].
  exists (join EmptyString front), (t +:+ join EmptyString back).
  rewrite <- (splitlines_join cell_source) at 1.
  rewrite Hlines at 1. rewrite !join_empty_app. rewrite Ht at 1.
  by rewrite !append_assoc.
Qed.

Lemma extract_classes_extracted_from (cell_source notebook_name : string)
    (tree done todo : list stmt) (acc classes : list TemplateClass) :
  Forall2 (extracted_from notebook_name cell_source) (class_nodes done) acc →
  foldM (extract_class cell_source notebook_name tree) acc todo = Ok classes →
  Forall2 (extracted_from notebook_name cell_source) (class_nodes (done ++ todo)) classes.
Proof.
  revert done acc. induction todo as [|child todo IH]; intros done acc Hacc; simpl.
  { intros [= <-]. by rewrite app_nil_r. }
  destruct (extract_class cell_source notebook_name tree acc child) as [acc'|] eqn:Hc;
    [|done].
  replace (done ++ child :: todo) with ((done ++ [child]) ++ todo)
    by (by rewrite <- app_assoc).
  apply IH. unfold class_nodes. rewrite omap_app. fold (class_nodes done).
  destruct child as [node|].
  - apply extract_class_extracted in Hc as (cls & -> & Hcls).
    apply Forall2_app; [exact Hacc|].
    change (Forall2 (extracted_from notebook_name cell_source) [node] [cls]).
    apply Forall2_cons. split; [exact Hcls | apply Forall2_nil_2].
  - unfold extract_class in Hc. apply Ok_inj in Hc. subst acc'.
    change (omap _ [OtherStmt]) with (@nil ClassDef). rewrite app_nil_r.
    exact Hacc.
Qed.

Lemma extract_classes_extracted (cell_source notebook_name : string)
    (tree : list stmt) (classes : list TemplateClass) :
  ast_parse cell_source = Some tree →
  _extract_classes_from_source ast_parse cell_source notebook_name = Ok classes →
  Forall2 (extracted_from notebook_name cell_source) (class_nodes tree) classes.
Proof.
  unfold _extract_classes_from_source. intros ->.
  apply (extract_classes_extracted_from cell_source notebook_name tree []).
  constructor.
Qed.

Lemma extract_classes_with_end_lines (cell_source notebook_name : string)
    (tree todo : list stmt) (acc : list TemplateClass) :
  (∀ node, node ∈ class_nodes todo → is_Some (end_lineno node)) →
  ∃ classes, foldM (extract_class cell_source notebook_name tree) acc todo = Ok classes.
Proof.
  revert acc. induction todo as [|child todo IH]; intros acc Hend; simpl.
  { by eexists. }
  destruct child as [node|]; cbn [extract_class].
  - destruct (Hend node) as [stop Hstop]; [by left|].
    unfold class_end. rewrite Hstop. cbn [mbind result_bind]. apply IH.
    intros n Hn. apply Hend. by right.
  - apply IH. intros n Hn. by apply Hend.
Qed.

(** The extractor yields one entry for each top-level class definition of
    the parsed source, in the order of the definitions, with the name and
    the base names of the definition and the notebook it was called with;
    when the parser gives every definition its end line, as it does, the
    extractor does not raise. *)
Theorem extract_classes_shape (cell_source notebook_name : string) (tree : list stmt) :
  ast_parse cell_source = Some tree →
  (∀ classes,
     _extract_classes_from_source ast_parse cell_source notebook_name = Ok classes →
     Forall2 (fun node cls =>
                name cls = node_name node ∧
                base_classes cls = class_base_names node ∧
                notebook cls = notebook_name)
             (class_nodes tree) classes) ∧
  ((∀ node, node ∈ class_nodes tree → is_Some (end_lineno node)) →
   ∃ classes,
     _extract_classes_from_source ast_parse cell_source notebook_name = Ok classes).
Proof.
  intros Htree. split.
  - intros classes Hcl.
    eapply Forall2_impl; [by eapply extract_classes_extracted|].
    intros node cls (? & ? & _ & ? & _). done.
  - intros Hend. unfold _extract_classes_from_source. rewrite Htree.
    by apply extract_classes_with_end_lines.
Qed.

(** An extracted class is a scene exactly when one of its bases is a
    bare name among the scene bases; a base written as a dotted path,
    such as [manim.Scene], does not make it one. *)
Theorem extracted_scene_by_bare_name (cell_source notebook_name : string)
    (tree : list stmt) (classes : list TemplateClass) :
  ast_parse cell_source = Some tree →
  _extract_classes_from_source ast_parse cell_source notebook_name = Ok classes →
  Forall2 (fun node cls =>
             is_scene cls = true ↔ ∃ id, Name id ∈ bases node ∧ id ∈ SCENE_BASES)
          (class_nodes tree) classes.
Proof.
  intros Htree Hcl.
  eapply Forall2_impl; [by eapply extract_classes_extracted|].
  intros node cls (_ & _ & -> & _). rewrite meets_scene_bases_true.
  split; intros (b & Hb & Hs); exists b; (split; [|done]);
    by apply name_bases_elem_of.
Qed.

(** The source of an extracted class is a piece of the text it was
    extracted from, taken as it stands, and it does not end in white
    space. *)
Theorem extracted_source_verbatim (cell_source notebook_name : string)
    (classes : list TemplateClass) (cls : TemplateClass) :
  _extract_classes_from_source ast_parse cell_source notebook_name = Ok classes →
  cls ∈ classes →
  rstrip (source cls) = source cls ∧
  ∃ front back, cell_source = front +:+ source cls +:+ back.
Proof.
  intros Hcl Hin.
  destruct (ast_parse cell_source) as [tree|] eqn:Htree.
  - pose proof (extract_classes_extracted _ _ _ _ Htree Hcl) as Hall.
    apply list_elem_of_lookup in Hin as [i Hi].
    destruct (Forall2_lookup_r _ _ _ _ _ Hall Hi) as (node & _ & Hext).
    by destruct Hext as (_ & _ & _ & _ & _ & _ & ? & ?).
  - unfold _extract_classes_from_source in Hcl. rewrite Htree in Hcl.
    injection Hcl as <-. by apply elem_of_nil in Hin.
Qed.

Lemma walk_back_exit (fuel : nat) (lines : list string) (start stop r : Z) :
  stop - start ≤ Z.of_nat fuel →
  walk_back fuel lines start stop = Ok r →
  r ≤ stop ∧ (start ≤ stop → start ≤ r) ∧
  (start < r →
   ∃ line, py_index lines (r - 1) = Ok line ∧ is_empty (strip line) = false) ∧
  (∀ k, r ≤ k < stop →
        ∃ line, py_index lines k = Ok line ∧ is_empty (strip line) = true).
Proof.
  revert stop. induction fuel as [|fuel IH]; intros stop Hfuel; cbn [walk_back].
  { intros [= <-]. repeat split; intros; lia. }
  destruct (Z.ltb_spec start stop) as [Hlt|Hge].
  - intros (line & Hline & Hrest)%bind_Ok.
    destruct (is_empty (strip line)) eqn:Hblank.
    + apply IH in Hrest as (Hle & Hst & Hlast & Hskip); [|lia].
      split; [lia|]. split; [lia|]. split; [done|].
      intros k Hk. destruct (decide (k = stop - 1)) as [->|Hne].
      * by exists line.
      * apply Hskip. lia.
    + injection Hrest as <-. split; [lia|]. split; [lia|].
      split; [by exists line|]. intros k Hk. lia.
  - intros [= <-]. repeat split; intros; lia.
Qed.

(** Without an end line from the parser, the end of a class is looked for
    in front of the next class definition below it: the lines left out
    between the end and that definition are blank, and the last line kept
    is not; with no class definition below, the class runs to the end of
    the text. *)
Theorem class_end_without_end_line (lines : list string) (tree : list stmt)
    (node : ClassDef) :
  end_lineno node = None →
  match next_class tree node with
  | None => class_end lines tree node = Ok (len lines)
  | Some other =>
      lineno node < lineno other ∧
      ∀ stop, class_end lines tree node = Ok stop →
        stop ≤ lineno other - 1 ∧
        (lineno node - 1 < stop →
         ∃ line, py_index lines (stop - 1) = Ok line ∧
                 is_empty (strip line) = false) ∧
        (∀ k, stop ≤ k < lineno other - 1 →
              ∃ line, py_index lines k = Ok line ∧ is_empty (strip line) = true)
  end.
Proof.
  intros Hend. unfold class_end. rewrite Hend.
  destruct (next_class tree node) as [other|] eqn:Hnext; [|done].
  split.
  { clear -Hnext. induction tree as [|[n|] tree IH]; simpl in Hnext; [done| |auto].
    destruct (Z.ltb_spec (lineno node) (lineno n)); [|auto].
    by injection Hnext as <-. }
  intros stop Hstop.
  apply walk_back_exit in Hstop as (? & _ & ? & ?); [done | lia].
Qed.

Lemma class_end_without_end_line_witness :
  class_end MoreSamples.old_lines MoreSamples.old_tree (MoreSamples.old_node "A" 1)
  = Ok 1 ∧
  ∀ k, 1 ≤ k < 3 - 1 →
       ∃ line, py_index MoreSamples.old_lines k = Ok line ∧
               is_empty (strip line) = true.
Proof.
  split; [vm_compute; reflexivity|].
  pose proof (class_end_without_end_line MoreSamples.old_lines MoreSamples.old_tree
                (MoreSamples.old_node "A" 1) eq_refl) as Hend.
  change (next_class MoreSamples.old_tree (MoreSamples.old_node "A" 1))
    with (Some (MoreSamples.old_node "B" 3)) in Hend.
  destruct Hend as [_ Hend]. apply (Hend 1). vm_compute; reflexivity.
Defined.

End ExtractedClasses.

Lemma extract_classes_shape_witness :
  MoreSamples.more_parse Samples.cell_abc
  = Some [ Samples.class_stmt "A" "VGroup" 1 2; Samples.class_stmt "B" "VGroup" 3 4;
           Samples.class_stmt "C" "VGroup" 5 6 ] ∧
  ∃ classes,
    _extract_classes_from_source MoreSamples.more_parse Samples.cell_abc "demo"
    = Ok classes.
Proof.
  split; [vm_compute; reflexivity|].
  eapply (extract_classes_shape MoreSamples.more_parse Samples.cell_abc "demo").
  - vm_compute; reflexivity.
  - intros node Hnode. vm_compute in Hnode.
    repeat (apply elem_of_cons in Hnode as [->|Hnode]; [by eexists|]).
    by apply elem_of_nil in Hnode.
Defined.

Lemma extracted_scene_by_bare_name_witness :
  Forall2 (fun node cls =>
             is_scene cls = true ↔ ∃ id, Name id ∈ bases node ∧ id ∈ SCENE_BASES)
          (class_nodes MoreSamples.dotted_tree) [MoreSamples.dotted_class].
Proof.
  apply (extracted_scene_by_bare_name MoreSamples.more_parse
           MoreSamples.cell_dotted "demo"); vm_compute; reflexivity.
Defined.

Lemma extracted_source_verbatim_witness :
  ∃ front back,
    Samples.cell_gates = front +:+ "class Hadamard(VGroup): pass" +:+ back.
Proof.
  eapply (extracted_source_verbatim Samples.sample_parse Samples.cell_gates "gates"
            _ {| name := "Hadamard"; source := "class Hadamard(VGroup): pass";
                 base_classes := ["VGroup"]; is_scene := false;
                 requires_latex := false; category := "quantum_gates";
                 notebook := "gates" |}).
  - vm_compute; reflexivity.
  - right. left.
Defined.

(** ** More on the load *)

Section LoadedEntries.

Variable ast_parse : string -> option (list stmt).

Lemma extracted_notebook (cell_source notebook_name : string)
    (classes : list TemplateClass) (cls : TemplateClass) :
  _extract_classes_from_source ast_parse cell_source notebook_name = Ok classes →
  cls ∈ classes → notebook cls = notebook_name.
Proof.
  intros Hcl Hin. destruct (ast_parse cell_source) as [tree|] eqn:Htree.
  - pose proof (extract_classes_extracted _ _ _ _ _ Htree Hcl) as Hall.
    apply list_elem_of_lookup in Hin as [i Hi].
    destruct (Forall2_lookup_r _ _ _ _ _ Hall Hi) as (node & _ & Hext).
    by destruct Hext as (_ & _ & _ & ? & _).
  - unfold _extract_classes_from_source in Hcl. rewrite Htree in Hcl.
    injection Hcl as <-. by apply elem_of_nil in Hin.
Qed.

Lemma example_attempts_origin (nb_name : string) (component_cell : option string)
    (cells : list string) (seen tried : list TemplateClass) (cls : TemplateClass) :
  foldM (example_attempts ast_parse nb_name component_cell) seen cells = Ok tried →
  cls ∈ tried →
  cls ∈ seen ∨
  is_scene cls = true ∧
  ∃ cell classes,
    cell ∈ cells ∧ component_cell ≠ Some cell ∧
    _extract_classes_from_source ast_parse cell nb_name = Ok classes ∧
    cls ∈ classes.
Proof.
  revert seen. induction cells as [|cell cells IH]; intros seen; simpl.
  { intros [= <-]. by left. }
  destruct (example_attempts ast_parse nb_name component_cell seen cell)
    as [seen'|] eqn:Hstep; [|done].
  intros Hfold Hin. destruct (IH _ Hfold Hin) as [Hseen'|(Hs & c & cl & Hc & ?)].
  - unfold example_attempts in Hstep. case_bool_decide as Hcc.
    + injection Hstep as <-. by left.
    + apply bind_Ok in Hstep as (classes & Hcl & [= <-]).
      apply elem_of_app in Hseen' as [?|[Hs Hcls]%list_elem_of_filter]; [by left|].
      right. split; [done|]. exists cell, classes.
      split; [by left|]. split; [congruence | done].
  - right. split; [done|]. exists c, cl. split; [by right | done].
Qed.

Lemma notebook_attempts_origin (nb : Path) (tried : list TemplateClass)
    (cls : TemplateClass) :
  notebook_attempts ast_parse nb = Ok tried →
  cls ∈ tried →
  (is_scene cls = false ∧ from_component_cell ast_parse nb cls) ∨
  (is_scene cls = true ∧ from_other_cell ast_parse nb cls).
Proof.
  unfold notebook_attempts.
  intros (cells & Hcells & (comps & Hcomps & Hfold)%bind_Ok)%bind_Ok Hin.
  destruct (example_attempts_origin _ _ _ _ _ _ Hfold Hin)
    as [Hcomp|(Hs & cell & classes & Hcell & Hne & Hcl & Hcls)].
  - left. unfold component_attempts in Hcomps.
    destruct (_find_component_cell ast_parse cells) as [cc|] eqn:Hcc.
    + destruct (is_empty cc).
      * injection Hcomps as <-. by apply elem_of_nil in Hcomp.
      * apply bind_Ok in Hcomps as (classes & Hcl & [= <-]).
        apply list_elem_of_filter in Hcomp as [Hs Hcls].
        split; [done|]. by exists cells, cc, classes.
    + injection Hcomps as <-. by apply elem_of_nil in Hcomp.
  - right. split; [done|]. exists cells, cell, classes.
    repeat split; try done; congruence.
Qed.

Lemma attempts_origin (notebooks : list Path) (tried : list TemplateClass)
    (cls : TemplateClass) :
  attempts ast_parse notebooks = Ok tried →
  cls ∈ tried →
  ∃ nb, nb ∈ notebooks ∧
        ((is_scene cls = false ∧ from_component_cell ast_parse nb cls) ∨
         (is_scene cls = true ∧ from_other_cell ast_parse nb cls)).
Proof.
  unfold attempts. intros Hfold. revert cls. revert Hfold.
  apply (foldM_invariant
           (fun before nb_path =>
              here ← notebook_attempts ast_parse nb_path; Ok (before ++ here))
           (fun tried => ∀ cls, cls ∈ tried →
              ∃ nb, nb ∈ notebooks ∧
                ((is_scene cls = false ∧ from_component_cell ast_parse nb cls) ∨
                 (is_scene cls = true ∧ from_other_cell ast_parse nb cls)))
           [] tried notebooks).
  - by intros cls ?%elem_of_nil.
  - intros s1 nb s2 Hnb Hs1 (here & Hhere & [= <-])%bind_Ok cls
      [?|Hin]%elem_of_app; [by apply Hs1|].
    exists nb. split; [done|]. by eapply notebook_attempts_origin.
Qed.

(** Where the entries of a loaded catalog come from: a component was
    extracted from the component cell of one of the scanned notebooks, an
    example from another cell of one, and each carries the stem of that
    notebook. *)
Theorem load_origin (samples_dir : option (list Path)) (cat : TemplateCatalog) :
  _load ast_parse samples_dir = Ok cat →
  (∀ comp, comp ∈ get_components cat →
     ∃ nb, nb ∈ scanned samples_dir ∧ from_component_cell ast_parse nb comp ∧
           notebook comp = stem nb) ∧
  (∀ ex, ex ∈ get_examples cat →
     ∃ nb, nb ∈ scanned samples_dir ∧ from_other_cell ast_parse nb ex ∧
           notebook ex = stem nb).
Proof.
  intros (tried & Htried & ->)%load_catalog_of.
  unfold get_components, get_examples. simpl.
  split; intros cls [Hs Hin%registrations_from_elem_of]%list_elem_of_filter;
    destruct Hin as [Hin _];
    destruct (attempts_origin _ _ _ Htried Hin)
      as (nb & Hnb & [[Hs' Hfrom]|[Hs' Hfrom]]); try congruence;
    exists nb; (split; [done|]); (split; [done|]).
  - destruct Hfrom as (cells & cell & classes & _ & _ & Hcl & Hcls).
    by eapply extracted_notebook.
  - destruct Hfrom as (cells & cell & classes & _ & _ & _ & Hcl & Hcls).
    by eapply extracted_notebook.
Qed.

End LoadedEntries.

Lemma load_origin_witness :
  _load Samples.sample_parse Samples.demo_dir = Ok (Samples.loaded Samples.demo_dir) ∧
  ∀ ex, ex ∈ get_examples (Samples.loaded Samples.demo_dir) →
    ∃ nb, nb ∈ scanned Samples.demo_dir ∧
          from_other_cell Samples.sample_parse nb ex ∧ notebook ex = stem nb.
Proof.
  split; [vm_compute; reflexivity|].
  apply (load_origin Samples.sample_parse Samples.demo_dir
           (Samples.loaded Samples.demo_dir)).
  vm_compute; reflexivity.
Defined.

Lemma registrations_from_app (seen : list (string * bool))
    (a b : list TemplateClass) :
  ∃ seen', registrations_from seen (a ++ b) =
           registrations_from seen a ++ registrations_from seen' b.
Proof.
  revert seen. induction a as [|cls a IH]; intros seen.
  { by exists seen. }
  change ((cls :: a) ++ b) with (cls :: (a ++ b)). cbn [registrations_from].
  case_bool_decide.
  - apply IH.
  - destruct (IH ((name cls, is_scene cls) :: seen)) as [seen' ->].
    by exists seen'.
Qed.

Section LoadOrder.

Variable ast_parse : string -> option (list stmt).

Lemma attempts_outcome (notebooks : list Path) (seen : list TemplateClass) :
  foldM (fun before nb_path =>
           here ← notebook_attempts ast_parse nb_path; Ok (before ++ here))
        seen notebooks =
  match attempts ast_parse notebooks with
  | Ok tried => Ok (seen ++ tried)
  | Raise e => Raise e
  end.
Proof.
  unfold attempts. revert seen.
  induction notebooks as [|nb notebooks IH]; intros seen; simpl.
  { by rewrite app_nil_r. }
  destruct (notebook_attempts ast_parse nb) as [here|]; simpl; [|done].
  rewrite (IH (seen ++ here)), (IH here).
  destruct (foldM _ [] notebooks); [|done]. by rewrite app_assoc.
Qed.

Lemma attempts_app (first more : list Path) :
  attempts ast_parse (first ++ more) =
  match attempts ast_parse first with
  | Ok a =>
      match attempts ast_parse more with
      | Ok b => Ok (a ++ b)
      | Raise e => Raise e
      end
  | Raise e => Raise e
  end.
Proof.
  unfold attempts at 1. rewrite foldM_app. fold (attempts ast_parse first).
  destruct (attempts ast_parse first) as [a|]; [|done].
  apply attempts_outcome.
Qed.

(** Notebooks further down the scan order leave what the ones in front
    registered in place: if the longer directory loads, the shorter one
    loads as well, and its components and its examples are the first
    components and the first examples of the longer one. *)
Theorem load_prefix (first more : list Path) (cat' : TemplateCatalog) :
  _load ast_parse (Some (first ++ more)) = Ok cat' →
  ∃ cat,
    _load ast_parse (Some first) = Ok cat ∧
    get_components cat `prefix_of` get_components cat' ∧
    get_examples cat `prefix_of` get_examples cat'.
Proof.
  intros (tried & Htried & ->)%load_catalog_of. simpl in Htried.
  rewrite attempts_app in Htried.
  destruct (attempts ast_parse first) as [a|] eqn:Ha; [|done].
  destruct (attempts ast_parse more) as [b|] eqn:Hb; [|done].
  injection Htried as <-.
  exists (catalog_of (registrations a)). split.
  { apply load_catalog_of. by exists a. }
  unfold registrations. destruct (registrations_from_app [] a b) as [seen' ->].
  unfold get_components, get_examples. simpl. rewrite !filter_app.
  split; by eexists.
Qed.

(** The name index of a loaded catalog holds the registered names and no
    others, each with an entry of that name out of the two lists. *)
Theorem load_index_exact (samples_dir : option (list Path)) (cat : TemplateCatalog)
    (n : string) :
  _load ast_parse samples_dir = Ok cat →
  (get_by_name cat n = None ↔
     (n ∉ name <$> get_components cat) ∧ (n ∉ name <$> get_examples cat)) ∧
  (∀ cls, get_by_name cat n = Some cls →
          name cls = n ∧ (cls ∈ get_components cat ∨ cls ∈ get_examples cat)).
Proof.
  intros (tried & _ & ->)%load_catalog_of.
  unfold get_by_name, get_components, get_examples. simpl.
  set (regs := registrations tried).
  assert (∀ cls, cls ∈ regs →
            cls ∈ filter (fun c => is_scene c = false) regs ∨
            cls ∈ filter (fun c => is_scene c = true) regs) as Hkind.
  { intros cls Hin. destruct (is_scene cls) eqn:Hs.
    - right. by apply list_elem_of_filter.
    - left. by apply list_elem_of_filter. }
  rewrite indexed_lookup. split.
  - destruct (last (filter (fun c => name c = n) regs)) as [c|] eqn:Hlast.
    + split; [done|]. intros [Hc He]. exfalso.
      apply last_Some_elem_of, list_elem_of_filter in Hlast as [Hname Hin].
      destruct (Hkind c Hin) as [Hk|Hk]; [apply Hc | apply He];
        apply list_elem_of_fmap; by exists c.
    + split; [|done]. intros _. apply last_None in Hlast.
      split; intros (c & Hname & [_ Hin]%list_elem_of_filter)%list_elem_of_fmap;
        eapply (filter_nil_not_elem_of _ _ c Hlast); done.
  - intros cls Hcls.
    destruct (last (filter (fun c => name c = n) regs)) as [c|] eqn:Hlast; [|done].
    injection Hcls as ->.
    apply last_Some_elem_of, list_elem_of_filter in Hlast as [Hname Hin].
    split; [done | by apply Hkind].
Qed.

End LoadOrder.

Lemma load_prefix_witness :
  ∃ cat,
    _load Samples.sample_parse (Some [Samples.nb_demo]) = Ok cat ∧
    get_components cat `prefix_of` get_components (Samples.loaded Samples.demo_dir) ∧
    get_examples cat `prefix_of` get_examples (Samples.loaded Samples.demo_dir).
Proof.
  apply (load_prefix Samples.sample_parse [Samples.nb_demo] [Samples.nb_gates]).
  vm_compute; reflexivity.
Defined.

Lemma load_index_exact_witness :
  _load Samples.sample_parse Samples.demo_dir = Ok (Samples.loaded Samples.demo_dir) ∧
  (get_by_name (Samples.loaded Samples.demo_dir) "Foo" = None ↔
     ("Foo" ∉ name <$> get_components (Samples.loaded Samples.demo_dir)) ∧
     ("Foo" ∉ name <$> get_examples (Samples.loaded Samples.demo_dir))).
Proof.
  split; [vm_compute; reflexivity|].
  apply (load_index_exact Samples.sample_parse Samples.demo_dir (Samples.loaded Samples.demo_dir) "Foo").
  vm_compute; reflexivity.
Defined.

Section LoadSkips.

Variable ast_parse : string -> option (list stmt).

Lemma extract_classes_none (cell_source notebook_name : string) :
  (∀ tree, ast_parse cell_source = Some tree → class_nodes tree = []) →
  _extract_classes_from_source ast_parse cell_source notebook_name = Ok [].
Proof.
  intros Hnone. unfold _extract_classes_from_source.
  destruct (ast_parse cell_source) as [tree|]; [|done].
  specialize (Hnone tree eq_refl).
  assert (∀ todo acc, class_nodes todo = [] →
            foldM (extract_class cell_source notebook_name tree) acc todo = Ok acc)
    as Hfold.
  { induction todo as [|[node|] todo IH]; intros acc Hn;
      [done | by cbn [class_nodes omap] in Hn |].
    cbn [foldM extract_class]. apply IH, Hn. }
  by apply Hfold.
Qed.

Lemma load_notebook_without_classes (st : load_state) (nb : Path)
    (cells : list string) :
  _extract_code_cells nb = Ok cells →
  (∀ cell tree, cell ∈ cells → ast_parse cell = Some tree → class_nodes tree = []) →
  load_notebook ast_parse st nb = Ok st.
Proof.
  intros Hcells Hnone. unfold load_notebook. rewrite Hcells. cbn [mbind result_bind].
  assert (∀ cell nb_name, cell ∈ cells →
            _extract_classes_from_source ast_parse cell nb_name = Ok []) as Hcl.
  { intros cell nb_name Hin. apply extract_classes_none.
    intros tree. by apply Hnone. }
  assert (load_components ast_parse (stem nb) (_find_component_cell ast_parse cells) st
          = Ok st) as ->.
  { unfold load_components.
    destruct (_find_component_cell ast_parse cells) as [cc|] eqn:Hcc; [|done].
    destruct (is_empty cc); [done|].
    destruct (extracted_cells_found ast_parse cells cc Hcc) as [Hin _].
    by rewrite Hcl. }
  cbn [mbind result_bind].
  assert (∀ todo, (∀ cell, cell ∈ todo → cell ∈ cells) →
            foldM (load_examples ast_parse (stem nb)
                     (_find_component_cell ast_parse cells)) st todo = Ok st)
    as Hfold.
  { induction todo as [|cell todo IH]; intros Hsub; [done|]. simpl.
    unfold load_examples at 1. case_bool_decide.
    - apply IH. intros c Hc. apply Hsub. by right.
    - rewrite Hcl by (apply Hsub; by left). simpl.
      apply IH. intros c Hc. apply Hsub. by right. }
  by apply Hfold.
Qed.

(** A notebook in which no cell defines a class at its top level, be it
    for want of code cells, of cells that parse, or of class statements,
    changes nothing: the load is that of the directory without it. *)
Theorem load_skips_notebook_without_classes (before after : list Path) (nb : Path)
    (cells : list string) :
  _extract_code_cells nb = Ok cells →
  (∀ cell tree, cell ∈ cells → ast_parse cell = Some tree → class_nodes tree = []) →
  _load ast_parse (Some (before ++ nb :: after)) =
  _load ast_parse (Some (before ++ after)).
Proof.
  intros Hcells Hnone.
  assert (foldM (load_notebook ast_parse) initial_state (before ++ nb :: after)
          = foldM (load_notebook ast_parse) initial_state (before ++ after)) as Heq.
  { apply foldM_skip. intros st. by eapply load_notebook_without_classes. }
  unfold _load. rewrite Heq.
  destruct (before ++ nb :: after) eqn:Hl; [by destruct before|].
  by destruct (before ++ after).
Qed.

End LoadSkips.

Lemma load_skips_notebook_without_classes_witness :
  _load Samples.sample_parse
        (Some ([Samples.nb_demo] ++ Samples.nb_partial :: [Samples.nb_gates]))
  = Ok (Samples.loaded Samples.demo_dir).
Proof.
  rewrite (load_skips_notebook_without_classes Samples.sample_parse
             [Samples.nb_demo] [Samples.nb_gates] Samples.nb_partial
             [Samples.cell_assign]).
  - vm_compute; reflexivity.
  - vm_compute; reflexivity.
  - intros cell tree ->%list_elem_of_singleton Htree.
    vm_compute in Htree. by injection Htree as <-.
Defined.

(** ** More on the queries *)

Lemma registered_once (regs : list TemplateClass) (x y : TemplateClass) :
  NoDup ((fun cls => (name cls, is_scene cls)) <$> regs) →
  x ∈ regs → y ∈ regs →
  name x = name y → is_scene x = is_scene y → x = y.
Proof.
  induction regs as [|r regs IH]; [by intros _ ?%elem_of_nil|].
  rewrite fmap_cons. intros [Hr Hnd]%NoDup_cons Hx Hy Hn Hs.
  apply elem_of_cons in Hx as [->|Hx]; apply elem_of_cons in Hy as [->|Hy].
  - done.
  - exfalso. apply Hr, list_elem_of_fmap. exists y. by rewrite Hn, Hs.
  - exfalso. apply Hr, list_elem_of_fmap. exists x. by rewrite Hn, Hs.
  - by apply IH.
Qed.

(** An example that [get_examples_list] shows can be fetched by its name,
    with a source of the length shown, when no component has that name. *)
Theorem listed_example_source (ast_parse : string -> option (list stmt))
    (samples_dir : option (list Path)) (cat : TemplateCatalog)
    (entry : example_entry) :
  _load ast_parse samples_dir = Ok cat →
  entry ∈ get_examples_list cat →
  (example_name entry ∉ name <$> get_components cat) →
  ∃ ex,
    ex ∈ get_examples cat ∧
    get_by_name cat (example_name entry) = Some ex ∧
    get_example_source cat (example_name entry) = Some (source ex) ∧
    String.length (source ex) = example_char_count entry ∧
    notebook ex = example_notebook entry.
Proof.
  intros (tried & _ & ->)%load_catalog_of.
  unfold get_examples_list, get_examples, get_components, get_by_name,
    get_example_source. simpl.
  intros (ex & -> & [Hs Hex]%list_elem_of_filter)%list_elem_of_fmap Hfree.
  cbn [example_name example_char_count example_notebook] in *.
  exists ex. split; [by apply list_elem_of_filter|].
  assert (indexed ∅ (registrations tried) !! name ex = Some ex) as Hidx.
  { rewrite indexed_lookup.
    destruct (last (filter (fun c => name c = name ex) (registrations tried)))
      as [x|] eqn:Hlast.
    - apply last_Some_elem_of, list_elem_of_filter in Hlast as [Hname Hin].
      f_equal. apply (registered_once (registrations tried)); try done.
      + apply registrations_from_NoDup.
      + rewrite Hs. destruct (is_scene x) eqn:Hx; [done|]. exfalso.
        apply Hfree, list_elem_of_fmap. exists x.
        split; [done | by apply list_elem_of_filter].
    - apply last_None in Hlast. exfalso.
      by eapply (filter_nil_not_elem_of _ _ ex Hlast). }
  rewrite Hidx, Hs. done.
Qed.

Lemma listed_example_source_witness :
  ∃ ex,
    ex ∈ get_examples (Samples.loaded Samples.demo_dir) ∧
    get_by_name (Samples.loaded Samples.demo_dir) "MyScene" = Some ex ∧
    get_example_source (Samples.loaded Samples.demo_dir) "MyScene"
      = Some (source ex) ∧
    String.length (source ex) = 59%nat ∧
    notebook ex = "demo".
Proof.
  apply (listed_example_source Samples.sample_parse Samples.demo_dir
           (Samples.loaded Samples.demo_dir)
           {| example_name := "MyScene"; example_requires_latex := false;
              example_notebook := "demo"; example_char_count := 59 |}).
  - vm_compute; reflexivity.
  - vm_compute. left.
  - intros Hin. vm_compute in Hin.
    repeat (apply elem_of_cons in Hin as [Hin|Hin]; [discriminate Hin|]).
    by apply elem_of_nil in Hin.
Defined.

Lemma filter_ext_in {A : Type} (P Q : A -> Prop) `{!∀ x, Decision (P x)}
    `{!∀ x, Decision (Q x)} (l : list A) :
  (∀ x, x ∈ l → P x ↔ Q x) → filter P l = filter Q l.
Proof.
  induction l as [|x l IH]; intros Hl; [done|].
  assert (filter P l = filter Q l) as Hrest.
  { apply IH. intros y Hy. apply Hl. by right. }
  destruct (decide (P x)) as [HP|HP].
  - rewrite !filter_cons_True; [by rewrite Hrest | by apply Hl; [left|] | done].
  - rewrite !filter_cons_False; [done | | done].
    intros HQ. apply HP, Hl; [by left | done].
Qed.

(** The combined source of a selection depends on the names selected as a
    set only: their order, repetitions and names that no component has
    make no difference; selecting every name gives the source of all. *)
Theorem get_component_source_by_set (cat : TemplateCatalog)
    (names names' : list string) :
  (∀ n, n ∈ name <$> get_components cat → n ∈ names ↔ n ∈ names') →
  get_component_source cat (Some names) = get_component_source cat (Some names') ∧
  get_component_source cat (Some (name <$> get_components cat))
  = get_component_source cat None.
Proof.
  intros Hsame. unfold get_component_source, get_components in *. split.
  - assert (filter (fun c => name c ∈ (list_to_set names : gset string))
                   (_components cat)
            = filter (fun c => name c ∈ (list_to_set names' : gset string))
                     (_components cat)) as ->; [|done].
    apply filter_ext_in. intros c Hc.
    rewrite !elem_of_list_to_set. apply Hsame, list_elem_of_fmap. by exists c.
  - assert (filter (fun c => name c ∈ (list_to_set (name <$> _components cat)
                                         : gset string)) (_components cat)
            = _components cat) as ->; [|done].
    transitivity (filter (fun _ : TemplateClass => True) (_components cat)).
    + apply filter_ext_in. intros c Hc.
      rewrite elem_of_list_to_set. split; [done|]. intros _.
      apply list_elem_of_fmap. by exists c.
    + generalize (_components cat). intros l.
      induction l as [|c l IH]; [done|].
      rewrite filter_cons_True by done. by rewrite IH.
Qed.

Lemma get_component_source_by_set_witness :
  get_component_source (Samples.loaded Samples.demo_dir)
                       (Some ["Wire"; "B"; "Wire"; "Zed"])
  = get_component_source (Samples.loaded Samples.demo_dir) (Some ["B"; "Wire"]).
Proof.
  apply (get_component_source_by_set (Samples.loaded Samples.demo_dir)).
  apply Forall_forall.
  refine (bool_decide_unpack
            (Forall (fun n : string => n ∈ ["Wire"; "B"; "Wire"; "Zed"] ↔ n ∈ ["B"; "Wire"])
                    (name <$> get_components (Samples.loaded Samples.demo_dir))) _).
  vm_compute. exact I.
Defined.

(** ** The categories listing *)

Lemma first_seen_snoc (l : list string) (x : string) :
  first_seen (l ++ [x]) =
  if bool_decide (x ∈ first_seen l) then first_seen l else first_seen l ++ [x].
Proof. unfold first_seen. by rewrite fold_left_app. Qed.

Lemma first_seen_elem_of (l : list string) (x : string) :
  x ∈ first_seen l ↔ x ∈ l.
Proof.
  induction l as [|y l IH] using rev_ind; [done|].
  rewrite first_seen_snoc, elem_of_app, list_elem_of_singleton.
  case_bool_decide as Hy.
  - rewrite IH. split; [by left | intros [?| ->]; [done | by apply IH]].
  - by rewrite elem_of_app, list_elem_of_singleton, IH.
Qed.

Lemma first_seen_NoDup (l : list string) : NoDup (first_seen l).
Proof.
  induction l as [|y l IH] using rev_ind; [constructor|].
  rewrite first_seen_snoc. case_bool_decide as Hy; [done|].
  apply NoDup_app. split; [done|]. split; [|apply NoDup_singleton].
  intros x Hx ->%list_elem_of_singleton. done.
Qed.

Lemma fmap_cancel {A B : Type} (f : A -> B) (g : B -> A) (l : list A) :
  (∀ x, g (f x) = x) → g <$> (f <$> l) = l.
Proof.
  intros Hgf. induction l as [|x l IH]; [done|].
  by rewrite !fmap_cons, Hgf, IH.
Qed.

Lemma append_to_fresh (cat : string) (entry : component_entry)
    (cats : list (string * list component_entry)) (entries : list component_entry) :
  cat ∉ cats.*1 →
  append_to cat entry (cats ++ [(cat, entries)]) = cats ++ [(cat, entries ++ [entry])].
Proof.
  induction cats as [|[k es] cats IH]; intros Hfresh; simpl.
  - by rewrite bool_decide_eq_true_2.
  - rewrite bool_decide_eq_false_2.
    + rewrite IH; [done|]. intros Hin. apply Hfresh. by right.
    + intros ->. apply Hfresh. by left.
Qed.

Lemma append_to_keyed (cat : string) (entry : component_entry) (keys : list string)
    (f g : string -> list component_entry) :
  NoDup keys → cat ∈ keys →
  g cat = f cat ++ [entry] → (∀ k, k ≠ cat → g k = f k) →
  append_to cat entry ((fun k => (k, f k)) <$> keys) = (fun k => (k, g k)) <$> keys.
Proof.
  intros Hnd Hin Hcat Hother. induction keys as [|k keys IH]; [by apply elem_of_nil in Hin|].
  apply NoDup_cons in Hnd as [Hk Hnd]. rewrite !fmap_cons. cbn [append_to].
  case_bool_decide as Hkc.
  - subst k. rewrite Hcat. f_equal.
    apply list_fmap_ext. intros i k Hi. f_equal. symmetry. apply Hother.
    intros ->. apply Hk. by eapply list_elem_of_lookup_2.
  - rewrite (Hother k Hkc). f_equal. apply IH; [done|].
    by apply elem_of_cons in Hin as [->|Hin].
Qed.

Lemma categories_step_grouped (comps : list TemplateClass) (comp : TemplateClass) :
  categories_step (grouped comps) comp = grouped (comps ++ [comp]).
Proof.
  unfold categories_step, grouped.
  rewrite fmap_app. change (category <$> [comp]) with [category comp].
  rewrite first_seen_snoc.
  assert (((fun k => (k, entry_of k <$> filter (fun c => category c = k) comps))
             <$> first_seen (category <$> comps)).*1
          = first_seen (category <$> comps)) as Hkeys.
  { by apply fmap_cancel. }
  rewrite Hkeys.
  assert (∀ k, k ≠ category comp →
            entry_of k <$> filter (fun c => category c = k) (comps ++ [comp])
            = entry_of k <$> filter (fun c => category c = k) comps) as Hother.
  { intros k Hk. rewrite filter_app, filter_cons_False by done.
    by rewrite filter_nil, app_nil_r. }
  assert (entry_of (category comp)
            <$> filter (fun c => category c = category comp) (comps ++ [comp])
          = (entry_of (category comp)
               <$> filter (fun c => category c = category comp) comps)
            ++ [entry_of (category comp) comp]) as Hsame.
  { rewrite filter_app, filter_cons_True by done. by rewrite filter_nil, fmap_app. }
  case_bool_decide as Hseen.
  - apply append_to_keyed; [apply first_seen_NoDup | done | done | done].
  - rewrite fmap_app. cbn [fmap list_fmap].
    assert (filter (fun c => category c = category comp) comps = []) as Hnone.
    { apply filter_none. intros c Hc Hcat. apply Hseen, first_seen_elem_of.
      apply list_elem_of_fmap. by exists c. }
    rewrite Hsame, Hnone. cbn [fmap list_fmap app].
    rewrite (append_to_fresh _ _ _ []) by (by rewrite Hkeys).
    cbn [app]. f_equal.
    apply list_fmap_ext. intros i k Hi. f_equal. symmetry. apply Hother.
    intros ->. apply Hseen. by eapply list_elem_of_lookup_2.
Qed.

Lemma fold_categories_step (comps : list TemplateClass) :
  fold_left categories_step comps [] = grouped comps.
Proof.
  induction comps as [|comp comps IH] using rev_ind; [done|].
  by rewrite fold_left_app, IH, <- categories_step_grouped.
Qed.

Lemma labels_cover_holds : labels_cover = true.
Proof. vm_compute; reflexivity. Qed.

(** [get_categories] has one group for each category that occurs among
    the components, in the order in which the categories first occur; the
    group of a category lists the components of that category in
    registration order, the ones [get_by_category] returns, and so each
    component is listed once, in the group of its category. *)
Theorem get_categories_groups (title : string -> string) (cat : TemplateCatalog) :
  group_name <$> get_categories title cat
    = first_seen (category <$> get_components cat) ∧
  NoDup (group_name <$> get_categories title cat) ∧
  (∀ g, g ∈ get_categories title cat →
        group_components g
          = entry_of (group_name g) <$> get_by_category cat (group_name g) ∧
        group_components g ≠ []) ∧
  (∀ comp, comp ∈ get_components cat →
           ∃ g, g ∈ get_categories title cat ∧ group_name g = category comp ∧
                entry_of (category comp) comp ∈ group_components g).
Proof.
  unfold get_categories, get_components, get_by_category.
  rewrite fold_categories_step. unfold grouped.
  set (group_of := fun item : string * list component_entry =>
                     {| group_name := item.1;
                        group_label :=
                          default (title (replace_underscores item.1))
                                  (CATEGORY_LABELS !! item.1);
                        group_components := item.2 |}).
  set (keyed := fun k => (k, entry_of k
                               <$> filter (fun comp => category comp = k)
                                          (_components cat))).
  assert (∀ l : list string, group_name <$> (group_of <$> (keyed <$> l)) = l)
    as Hnames.
  { induction l as [|k l IH]; [done|]. rewrite !fmap_cons. by rewrite IH. }
  split; [apply Hnames|]. split; [rewrite Hnames; apply first_seen_NoDup|]. split.
  - intros g (item & -> & (k & -> & Hk)%list_elem_of_fmap)%list_elem_of_fmap.
    unfold group_of, keyed. cbn [group_components group_name fst snd].
    split; [done|].
    apply first_seen_elem_of, list_elem_of_fmap in Hk as (comp & -> & Hcomp).
    intros Hnil%fmap_nil_inv.
    by eapply (filter_nil_not_elem_of _ _ comp Hnil).
  - intros comp Hcomp. exists (group_of (keyed (category comp))). split.
    + apply list_elem_of_fmap_2, list_elem_of_fmap_2.
      apply first_seen_elem_of, list_elem_of_fmap. by exists comp.
    + unfold group_of, keyed. cbn [group_components group_name fst snd].
      split; [done|].
      apply list_elem_of_fmap. exists comp. split; [done|].
      by apply list_elem_of_filter.
Qed.

(** In a loaded catalog every group of [get_categories] has the label the
    table of labels gives its category, the one [get_summary] prints as
    heading: the spare label made from the key is not used. *)
Theorem get_categories_labels (ast_parse : string -> option (list stmt))
    (title : string -> string) (samples_dir : option (list Path))
    (cat : TemplateCatalog) (g : category_group) :
  _load ast_parse samples_dir = Ok cat →
  g ∈ get_categories title cat →
  CATEGORY_LABELS !! group_name g = Some (group_label g) ∧
  ∃ comp, comp ∈ get_components cat ∧ category comp = group_name g ∧
          label_of comp = group_label g.
Proof.
  intros Hload. unfold get_categories. rewrite fold_categories_step. unfold grouped.
  intros (item & -> & (k & -> & Hk)%list_elem_of_fmap)%list_elem_of_fmap.
  cbn [group_label group_name fst].
  apply first_seen_elem_of, list_elem_of_fmap in Hk as (comp & -> & Hcomp).
  assert (is_Some (CATEGORY_LABELS !! category comp)) as [label Hlabel].
  { pose proof labels_cover_holds as Hcover. unfold labels_cover in Hcover.
    rewrite forallb_forall in Hcover.
    assert (category comp ∈ COMPONENT_CATEGORIES) as Hin
      by (by eapply component_category).
    apply list_elem_of_In, Hcover in Hin.
    by apply bool_decide_eq_true in Hin. }
  rewrite Hlabel. split; [done|]. exists comp. split; [done|]. split; [done|].
  unfold label_of. by rewrite Hlabel.
Qed.

Lemma get_categories_labels_witness :
  CATEGORY_LABELS !! "quantum_gates" = Some "Quantum Gates" ∧
  ∃ comp, comp ∈ get_components (Samples.loaded Samples.demo_dir) ∧
          category comp = "quantum_gates" ∧ label_of comp = "Quantum Gates".
Proof.
  apply (get_categories_labels Samples.sample_parse (fun s => s) Samples.demo_dir
           (Samples.loaded Samples.demo_dir)
           {| group_name := "quantum_gates"; group_label := "Quantum Gates";
              group_components :=
                [ {| entry_name := "Hadamard"; entry_category := "quantum_gates";
                     entry_requires_latex := false;
                     entry_base_classes := ["VGroup"];
                     entry_char_count := 28 |} ] |}).
  - vm_compute; reflexivity.
  - vm_compute. do 2 right. left.
Defined.

(** ** The summary and the system prompt *)

Lemma join_cons_append (sep x : string) (l : list string) :
  ∃ t, join sep (x :: l) = x +:+ t.
Proof.
  destruct l as [|y l]; [exists EmptyString; by rewrite append_nil_r|].
  by eexists.
Qed.

(** The summary is blank exactly when the catalog has no component. *)
Lemma summary_blank (cat : TemplateCatalog) :
  is_empty (strip (get_summary cat)) = true ↔ get_components cat = [].
Proof.
  unfold get_summary, summary_lines, get_components.
  rewrite fold_summary_step. cbn [app].
  destruct (_components cat) as [|c comps]; [done|]. split; [|done].
  cbn [summary_from]. intros Hblank. exfalso. revert Hblank.
  case_bool_decide.
  - cbn [app]. destruct (join_cons_append nl (heading (label_of c))
                           (bullet c :: summary_from (label_of c) comps)) as [t ->].
    unfold heading. rewrite !append_assoc.
    change (nl +:+ "## " +:+ label_of c +:+ t)
      with (nl +:+ String "#"%char ("# " +:+ label_of c +:+ t)).
    by rewrite strip_not_empty.
  - cbn [app]. destruct (join_cons_append nl (bullet c)
                           (summary_from (label_of c) comps)) as [t ->].
    unfold bullet. cbv zeta. rewrite !append_assoc.
    match goal with
    | |- context [strip ("- `" +:+ ?x)] =>
        change ("- `" +:+ x) with (EmptyString +:+ String "-"%char (" `" +:+ x))
    end.
    by rewrite strip_not_empty.
Qed.

Lemma starts_with_append (p s t : string) :
  starts_with p s = true → starts_with p (s +:+ t) = true.
Proof.
  revert s. induction p as [|a p IH]; intros s; [done|].
  destruct s as [|b s]; [done|]. rewrite append_cons. cbn [starts_with].
  intros [-> Hp]%andb_prop. by rewrite IH.
Qed.

Lemma contains_append_l (p s t : string) :
  contains p s = true → contains p (s +:+ t) = true.
Proof.
  induction s as [|a s IH].
  - cbn [contains]. rewrite orb_false_r. intros Hp.
    destruct t; cbn [contains String.append];
      change (EmptyString +:+ ?x) with x;
      destruct p; try done.
  - rewrite append_cons. cbn [contains].
    intros [Hp|Hp]%orb_prop.
    + change (String a (s +:+ t)) with (String a s +:+ t).
      by rewrite starts_with_append.
    + rewrite IH by done. apply orb_true_r.
Qed.

Lemma contains_append_r (p s t : string) :
  contains p t = true → contains p (s +:+ t) = true.
Proof.
  intros Hp. induction s as [|a s IH]; [done|].
  rewrite append_cons. cbn [contains]. rewrite IH. apply orb_true_r.
Qed.

Lemma no_component_no_source (cat : TemplateCatalog) (names : option (list string)) :
  get_components cat = [] → get_component_source cat names = EmptyString.
Proof.
  unfold get_components, get_component_source. intros ->. by destruct names.
Qed.

Section PromptProperties.

Variables prompt_head prompt_rules prompt_tail : string.
Variables LATEX_ENABLED_RULES LATEX_DISABLED_RULES : string.

(** What [build_system_prompt] puts in the place of the component rules.
    With an empty catalog, nothing. Otherwise the library block with the
    combined source of the selection when that source is not empty, and
    the block with the summary in every other case (no selection, an
    empty one, or one that names no component), never both; so the prompt
    of a catalog with components always has one of the two headings. *)
Theorem build_system_prompt_components (catalog : TemplateCatalog)
    (latex_available : bool) (selected_components : option (list string)) :
  let latex_rules :=
    if latex_available then LATEX_ENABLED_RULES else LATEX_DISABLED_RULES in
  let component_source :=
    match selected_components with
    | Some names => get_component_source catalog (Some names)
    | None => EmptyString
    end in
  (get_components catalog = [] →
   build_system_prompt prompt_head prompt_rules prompt_tail LATEX_ENABLED_RULES
     LATEX_DISABLED_RULES catalog latex_available selected_components
   = prompt_head +:+ latex_rules +:+ prompt_rules +:+ prompt_tail) ∧
  (get_components catalog ≠ [] →
   build_system_prompt prompt_head prompt_rules prompt_tail LATEX_ENABLED_RULES
     LATEX_DISABLED_RULES catalog latex_available selected_components
   = prompt_head +:+ latex_rules +:+ prompt_rules +:+
     (if is_empty component_source then summary_rules (get_summary catalog)
      else library_rules component_source) +:+ prompt_tail ∧
   contains "AVAILABLE COMPONENT"
            (build_system_prompt prompt_head prompt_rules prompt_tail LATEX_ENABLED_RULES
     LATEX_DISABLED_RULES catalog latex_available selected_components) = true).
Proof.
  intros latex_rules component_source.
  assert (selected_rules catalog selected_components
          = if is_empty component_source then EmptyString
            else library_rules component_source) as Hsel.
  { unfold selected_rules, component_source.
    destruct selected_components as [[|n names]|]; [|done..].
    assert (get_component_source catalog (Some []) = EmptyString) as ->; [|done].
    unfold get_component_source. rewrite filter_none; [done|].
    intros c _ Hc. by apply elem_of_empty in Hc. }
  unfold build_system_prompt, component_rules. fold latex_rules.
  rewrite Hsel. split.
  - intros Hnone.
    rewrite (proj2 (summary_blank catalog) Hnone).
    assert (component_source = EmptyString) as ->.
    { unfold component_source. destruct selected_components; [|done].
      by apply no_component_no_source. }
    done.
  - intros Hsome.
    assert (is_empty (strip (get_summary catalog)) = false) as ->.
    { destruct (is_empty (strip (get_summary catalog))) eqn:Hb; [|done].
      by apply summary_blank in Hb. }
    assert ((if is_empty
                  (if is_empty component_source then EmptyString
                   else library_rules component_source)
             then summary_rules (get_summary catalog)
             else if is_empty component_source then EmptyString
                  else library_rules component_source)
            = if is_empty component_source then summary_rules (get_summary catalog)
              else library_rules component_source) as ->.
    { by destruct (is_empty component_source). }
    split; [done|].
    apply contains_append_r, contains_append_r, contains_append_r, contains_append_l.
    destruct (is_empty component_source).
    + unfold summary_rules. apply contains_append_r, contains_append_l. reflexivity.
    + unfold library_rules. apply contains_append_r, contains_append_l. reflexivity.
Qed.

End PromptProperties.

Lemma build_system_prompt_components_witness :
  contains "AVAILABLE COMPONENT"
    (build_system_prompt "HEAD" "RULES" "TAIL" "LATEX" "PANGO"
       (Samples.loaded Samples.demo_dir) false (Some ["Hadamard"])) = true.
Proof.
  apply (build_system_prompt_components "HEAD" "RULES" "TAIL" "LATEX" "PANGO"
           (Samples.loaded Samples.demo_dir) false (Some ["Hadamard"])).
  intros Hnone. vm_compute in Hnone. discriminate Hnone.
Defined.

(** ** The code in a response *)

Lemma drop_prefix_append (p r : string) : drop_prefix p (p +:+ r) = Some r.
Proof.
  induction p as [|a p IH]; [by destruct r|].
  rewrite append_cons. cbn [drop_prefix]. by rewrite bool_decide_eq_true_2.
Qed.

Lemma drop_prefix_starts_with (p s : string) :
  starts_with p s = false → drop_prefix p s = None.
Proof.
  revert s. induction p as [|a p IH]; intros s; [done|].
  destruct s as [|b s]; [done|]. cbn [starts_with drop_prefix].
  case_bool_decide; [|done]. by apply IH.
Qed.

Lemma starts_with_shorter (p q s : string) :
  starts_with (p +:+ q) s = true → starts_with p s = true.
Proof.
  revert s. induction p as [|a p IH]; intros s; [done|].
  rewrite append_cons. destruct s as [|b s]; [done|]. cbn [starts_with].
  intros [-> Hp]%andb_prop. by rewrite (IH s).
Qed.

Lemma contains_shorter (p q s : string) :
  contains p s = false → contains (p +:+ q) s = false.
Proof.
  induction s as [|a s IH]; cbn [contains].
  - rewrite !orb_false_r. intros Hp.
    destruct (starts_with (p +:+ q) EmptyString) eqn:Hpq; [|done].
    apply starts_with_shorter in Hpq. congruence.
  - intros [Hp Hs]%orb_false_elim. rewrite (IH Hs), orb_false_r.
    destruct (starts_with (p +:+ q) (String a s)) eqn:Hpq; [|done].
    apply starts_with_shorter in Hpq. congruence.
Qed.

Lemma search_literal_absent (text : string) (items : list pattern_item) (s : string) :
  contains text s = false → search (Literal text :: items) s = None.
Proof.
  induction s as [|a s IH]; cbn [contains search match_here].
  - rewrite orb_false_r. intros Hs. by rewrite drop_prefix_starts_with.
  - intros [Hs Hrest]%orb_false_elim. rewrite drop_prefix_starts_with by done.
    by apply IH.
Qed.

Lemma mentions_append (c : ascii) (s t : string) :
  mentions c (s +:+ t) = mentions c s || mentions c t.
Proof.
  induction s as [|a s IH]; [done|].
  rewrite append_cons. cbn [mentions]. by rewrite IH, orb_assoc.
Qed.

Lemma all_space_append (s t : string) :
  all_space (s +:+ t) = all_space s && all_space t.
Proof.
  induction s as [|a s IH]; [done|].
  rewrite append_cons. cbn [all_space]. by rewrite IH, andb_assoc.
Qed.

Lemma all_space_rstrip (s : string) : all_space s = true → rstrip s = EmptyString.
Proof.
  induction s as [|a s IH]; [done|]. cbn [all_space rstrip].
  intros [Ha Hs]%andb_prop. by rewrite (IH Hs), Ha.
Qed.

(** A text is white space, then what [lstrip] leaves; a text is what
    [rstrip] leaves, then white space. *)
Lemma lstrip_split (s : string) :
  ∃ ws, s = ws +:+ lstrip s ∧ all_space ws = true.
Proof.
  induction s as [|a s (ws & Hs & Hws)]; [by exists EmptyString|].
  cbn [lstrip]. destruct (is_space a) eqn:Ha.
  - exists (String a ws). rewrite append_cons, <- Hs. cbn [all_space].
    by rewrite Ha, Hws.
  - by exists EmptyString.
Qed.

Lemma rstrip_split (s : string) :
  ∃ ws, s = rstrip s +:+ ws ∧ all_space ws = true.
Proof.
  induction s as [|a s (ws & Hs & Hws)]; [by exists EmptyString|].
  cbn [rstrip]. destruct (is_empty (rstrip s) && is_space a) eqn:Hb.
  - apply andb_prop in Hb as [He Ha]. exists (String a s). split; [done|].
    cbn [all_space]. rewrite Ha. destruct (rstrip s); [|done].
    by rewrite Hs.
  - exists ws. by rewrite append_cons, <- Hs.
Qed.

Lemma lstrip_head (s : string) :
  match lstrip s with
  | EmptyString => True
  | String c _ => is_space c = false
  end.
Proof.
  induction s as [|a s IH]; [done|]. cbn [lstrip].
  by destruct (is_space a) eqn:Ha.
Qed.

Lemma closing_cons (c : ascii) (s group : string) :
  match_here [Spaces; Literal "```"] (String c s) group =
  if is_space c then
    match match_here [Spaces; Literal "```"] s group with
    | Some found => Some found
    | None => match_here [Literal "```"] (String c s) group
    end
  else match_here [Literal "```"] (String c s) group.
Proof. reflexivity. Qed.

Lemma closing_matches (ws post group : string) :
  all_space ws = true →
  match_here [Spaces; Literal "```"] (ws +:+ "```" +:+ post) group = Some group.
Proof.
  induction ws as [|c ws IH]; [done|].
  cbn [all_space]. intros [Hc Hws]%andb_prop.
  by rewrite append_cons, closing_cons, Hc, IH.
Qed.

Lemma closing_fails (x rest group : string) :
  mentions backtick x = false → all_space x = false →
  match_here [Spaces; Literal "```"] (x +:+ rest) group = None.
Proof.
  induction x as [|c x IH]; [done|].
  cbn [mentions all_space]. intros [Hc Hx]%orb_false_elim Hspace.
  apply bool_decide_eq_false in Hc.
  assert (match_here [Literal "```"] (String c (x +:+ rest)) group = None) as Hlit.
  { cbn [match_here drop_prefix]. rewrite bool_decide_eq_false_2; [done|].
    intros Heq. apply Hc. by rewrite <- Heq. }
  rewrite append_cons, closing_cons, Hlit.
  destruct (is_space c); [|done]. by rewrite IH.
Qed.

Lemma lazy_any_found (rest : string -> string -> option string)
    (s taken found : string) :
  rest s taken = Some found → lazy_any rest s taken = Some found.
Proof. intros Hrest. destruct s; cbn [lazy_any]; by rewrite Hrest. Qed.

Lemma lazy_any_next (rest : string -> string -> option string)
    (c : ascii) (s taken : string) :
  rest (String c s) taken = None →
  lazy_any rest (String c s) taken
  = lazy_any rest s (taken +:+ String c EmptyString).
Proof. intros Hrest. cbn [lazy_any]. by rewrite Hrest. Qed.

Lemma lazy_any_finds (core ws post taken : string) :
  rstrip core = core → all_space ws = true →
  mentions backtick (core +:+ ws) = false →
  lazy_any (match_here [Spaces; Literal "```"]) (core +:+ ws +:+ "```" +:+ post) taken
  = Some (taken +:+ core).
Proof.
  revert taken. induction core as [|c core IH]; intros taken Hcore Hws Hticks.
  - change (EmptyString +:+ ?x) with x.
    rewrite lazy_any_found with (found := taken);
      [by rewrite append_nil_r | by apply closing_matches].
  - assert (rstrip core = core ∧ all_space (String c core) = false) as [Hcore' Hns].
    { cbn [rstrip] in Hcore.
      destruct (is_empty (rstrip core) && is_space c) eqn:Hb; [done|].
      injection Hcore as Hcore. split; [done|].
      destruct (all_space (String c core)) eqn:Hall; [|done].
      cbn [all_space] in Hall. apply andb_prop in Hall as [Hc Hall].
      apply all_space_rstrip in Hall. by rewrite Hall, Hc in Hb. }
    rewrite append_cons, lazy_any_next.
    + rewrite IH; [by rewrite append_assoc | done | done |].
      rewrite append_cons in Hticks. cbn [mentions] in Hticks.
      by apply orb_false_elim in Hticks as [_ ?].
    + rewrite <- append_cons, <- (append_assoc (String c core) ws).
      apply closing_fails; [done | by rewrite all_space_append, Hns].
Qed.

Lemma greedy_spaces_skips (rest : string -> option string) (ws t found : string) :
  all_space ws = true →
  match t with
  | EmptyString => True
  | String c _ => is_space c = false
  end →
  rest t = Some found →
  greedy_spaces rest (ws +:+ t) = Some found.
Proof.
  intros Hws Ht Hrest. induction ws as [|c ws IH].
  - change (EmptyString +:+ t) with t. destruct t as [|c t]; [done|].
    cbn [greedy_spaces]. by rewrite Ht.
  - cbn [all_space] in Hws. apply andb_prop in Hws as [Hc Hws].
    rewrite append_cons. cbn [greedy_spaces]. by rewrite Hc, IH.
Qed.

(** A fenced block at the start of a text is matched, and its group is
    the code inside without the white space around it. *)
Lemma match_fenced (opening code post : string) :
  mentions backtick code = false →
  match_here [Literal opening; Spaces; Group; Spaces; Literal "```"]
             (opening +:+ code +:+ "```" +:+ post) EmptyString
  = Some (strip code).
Proof.
  intros Hticks. cbn [match_here]. rewrite drop_prefix_append.
  destruct (lstrip_split code) as (front & Hfront & Hfs).
  destruct (rstrip_split (lstrip code)) as (back & Hback & Hbs).
  fold (strip code) in Hback.
  assert (mentions backtick (strip code +:+ back) = false) as Hinner.
  { rewrite <- Hback. rewrite Hfront, mentions_append in Hticks.
    by apply orb_false_elim in Hticks as [_ ?]. }
  rewrite Hfront at 1. rewrite append_assoc.
  apply greedy_spaces_skips; [done | |].
  - pose proof (lstrip_head code) as Hhead.
    destruct (lstrip code); [done|]. by rewrite append_cons.
  - rewrite Hback at 1. rewrite append_assoc.
    rewrite lazy_any_finds; [done | | done | done].
    unfold strip. apply rstrip_idempotent.
Qed.

Lemma search_skips (text : string) (items : list pattern_item) (front s : string) :
  mentions backtick front = false →
  search (Literal (String backtick text) :: items) (front +:+ s)
  = search (Literal (String backtick text) :: items) s.
Proof.
  induction front as [|c front IH]; [done|].
  cbn [mentions]. intros [Hc Hfront]%orb_false_elim.
  apply bool_decide_eq_false in Hc.
  rewrite append_cons. cbn [search match_here drop_prefix].
  rewrite bool_decide_eq_false_2 by (intros Heq; by apply Hc).
  by apply IH.
Qed.

Lemma search_found (items : list pattern_item) (s found : string) :
  match_here items s EmptyString = Some found → search items s = Some found.
Proof. intros Hhere. destruct s; cbn [search]; by rewrite Hhere. Qed.

Lemma search_fenced (text code front post : string) :
  mentions backtick front = false → mentions backtick code = false →
  search [Literal (String backtick text); Spaces; Group; Spaces; Literal "```"]
         (front +:+ String backtick text +:+ code +:+ "```" +:+ post)
  = Some (strip code).
Proof.
  intros Hfront Hcode. rewrite search_skips by done.
  apply search_found, match_fenced, Hcode.
Qed.

(** The code of the first block fenced as Python is returned without the
    white space around it, whatever follows the block, when neither the
    text in front of the block nor the code has a backtick. *)
Theorem extract_code_python_fence (front code post : string) :
  mentions backtick front = false → mentions backtick code = false →
  extract_code_from_response
    (front +:+ "```python" +:+ code +:+ "```" +:+ post)
  = strip code.
Proof.
  intros Hfront Hcode. unfold extract_code_from_response, python_fence.
  change "```python" with (String backtick "``python").
  rewrite search_fenced by done. apply strip_idempotent.
Qed.

Lemma extract_code_python_fence_witness :
  extract_code_from_response
    (("Here is the code:" +:+ nl) +:+ "```python" +:+
     (nl +:+ "print('hello')" +:+ nl) +:+ "```" +:+ (nl +:+ "Hope that helps!"))
  = strip (nl +:+ "print('hello')" +:+ nl).
Proof.
  exact (extract_code_python_fence ("Here is the code:" +:+ nl)
           (nl +:+ "print('hello')" +:+ nl) (nl +:+ "Hope that helps!")
           eq_refl eq_refl).
Defined.

(** Without a block fenced as Python, the code of the first block in
    plain fences is returned in the same way. *)
Theorem extract_code_plain_fence (front code post : string) :
  mentions backtick front = false → mentions backtick code = false →
  contains "```python" (front +:+ "```" +:+ code +:+ "```" +:+ post) = false →
  extract_code_from_response (front +:+ "```" +:+ code +:+ "```" +:+ post)
  = strip code.
Proof.
  intros Hfront Hcode Hpython.
  unfold extract_code_from_response, python_fence, plain_fence.
  rewrite search_literal_absent by done.
  assert (contains "```" (front +:+ "```" +:+ code +:+ "```" +:+ post) = true) as ->.
  { apply contains_append_r, contains_append_l. reflexivity. }
  change "```" with (String backtick "``") at 1 2.
  rewrite (search_fenced "``") by done. apply strip_idempotent.
Qed.

Lemma extract_code_plain_fence_witness :
  extract_code_from_response
    ("Plain: " +:+ "```" +:+ (nl +:+ "some code here" +:+ nl) +:+ "```"
     +:+ " done")
  = strip (nl +:+ "some code here" +:+ nl).
Proof.
  exact (extract_code_plain_fence "Plain: " (nl +:+ "some code here" +:+ nl)
           " done" eq_refl eq_refl eq_refl).
Defined.

(** Whatever the response, the extracted code has no white space at its
    ends: stripping it again changes nothing. *)
Theorem extract_code_stripped (response_text : string) :
  strip (extract_code_from_response response_text)
  = extract_code_from_response response_text.
Proof.
  unfold extract_code_from_response.
  destruct (search python_fence response_text); [apply strip_idempotent|].
  destruct (contains "```" response_text); [|apply strip_idempotent].
  destruct (search plain_fence response_text); apply strip_idempotent.
Qed.

(** A response without three backticks in a row is returned whole,
    without the white space around it. *)
Theorem extract_code_unfenced (response_text : string) :
  contains "```" response_text = false →
  extract_code_from_response response_text = strip response_text.
Proof.
  intros Hnone. unfold extract_code_from_response, python_fence.
  rewrite search_literal_absent, Hnone; [done|].
  by apply (contains_shorter "```" "python").
Qed.

Lemma extract_code_unfenced_witness :
  extract_code_from_response ("  x = `a` + ``b``" +:+ nl)
  = strip ("  x = `a` + ``b``" +:+ nl).
Proof.
  exact (extract_code_unfenced ("  x = `a` + ``b``" +:+ nl) eq_refl).
Defined.
